(** * Web-search workflow of [src/server/mastra.ts]

    A shallow embedding of the two workflow steps ([searchStep],
    [processResultsStep]), the lazily initialised singletons ([getMastra],
    [getWebSearchAgent]) and the run entry point ([runWebSearchAgent]),
    followed by the properties of the specification that concern them.

    Conventions.
    - JavaScript values are the type [JsValue]; an evaluation either returns
      a value or throws one ([Completion]).
    - [console.log] / [console.error] have no influence on any returned value
      and are left out.
    - An [async] function is run to completion: [await p] reads the outcome
      the promise [p] settles with.  A call of an exported [async] function
      returns a promise of its own.  Calls of the module's functions are
      atomic steps on the module state, as in JavaScript's run-to-completion
      execution (no [await] separates the test of a cached promise from its
      assignment). *)

From Stdlib Require Import String Ascii List Bool Arith Lia.
Import ListNotations.
Open Scope string_scope.

#[local] Set Warnings "-register-all".

(* ================================================================== *)
(** ** JavaScript values *)

(** The fragment of JavaScript values the program can tell apart: it tests
    truthiness, reads properties, tests [instanceof Error] and interpolates
    into a template literal.  [JError m] is an instance of [Error] whose
    [message] is [m]; [JObj] is a plain object, its properties in insertion
    order. *)
Inductive JsValue : Type :=
| JUndefined
| JNull
| JBool (b : bool)
| JStr (s : string)
| JObj (props : list (string * JsValue))
| JError (message : string).

(** Result of evaluating an expression or a function body. *)
Inductive Completion (A : Type) : Type :=
| Return (a : A)
| Throw (e : JsValue).
Arguments Return {A} a.
Arguments Throw {A} e.

Module Js.

(** ToBoolean. *)
Definition truthy (v : JsValue) : bool :=
  match v with
  | JUndefined | JNull => false
  | JBool b => b
  | JStr s => negb (s =? "")
  | JObj _ | JError _ => true
  end.

Definition is_nullish (v : JsValue) : bool :=
  match v with
  | JUndefined | JNull => true
  | _ => false
  end.

Fixpoint lookup (k : string) (props : list (string * JsValue)) : JsValue :=
  match props with
  | [] => JUndefined
  | (k', v) :: rest => if k =? k' then v else lookup k rest
  end.

(** [v?.k]: [undefined] on a nullish [v], the property otherwise.  None of
    the keys the program reads is a property of a primitive's prototype. *)
Definition opt_get (v : JsValue) (k : string) : JsValue :=
  match v with
  | JObj props => lookup k props
  | JError m => if k =? "message" then JStr m else JUndefined
  | _ => JUndefined
  end.

(** [v.k]: a [TypeError] on a nullish [v]. *)
Definition get (v : JsValue) (k : string) : Completion JsValue :=
  match v with
  | JUndefined =>
      Throw (JError ("Cannot read properties of undefined (reading '" ++ k ++ "')"))
  | JNull =>
      Throw (JError ("Cannot read properties of null (reading '" ++ k ++ "')"))
  | _ => Return (opt_get v k)
  end.

(** [a || b]. *)
Definition or (a b : JsValue) : JsValue := if truthy a then a else b.

(** [v instanceof Error]. *)
Definition instanceof_Error (v : JsValue) : bool :=
  match v with
  | JError _ => true
  | _ => false
  end.

(** ToString, as applied to [${v}] in a template literal. *)
Definition to_string (v : JsValue) : string :=
  match v with
  | JUndefined => "undefined"
  | JNull => "null"
  | JBool true => "true"
  | JBool false => "false"
  | JStr s => s
  | JObj _ => "[object Object]"
  | JError m => if m =? "" then "Error" else "Error: " ++ m
  end.

Definition hex_digit (n : nat) : ascii :=
  nth n (list_ascii_of_string "0123456789abcdef") "0"%char.

(** QuoteJSONString on one character: the two-character escapes, [\u00xx]
    for the other control characters, everything else unchanged. *)
Definition json_escape (c : ascii) : string :=
  let n := nat_of_ascii c in
  if Nat.eqb n 34 then "\" ++ String c ""
  else if Nat.eqb n 92 then "\\"
  else if Nat.eqb n 8 then "\b"
  else if Nat.eqb n 9 then "\t"
  else if Nat.eqb n 10 then "\n"
  else if Nat.eqb n 12 then "\f"
  else if Nat.eqb n 13 then "\r"
  else if Nat.ltb n 32 then
    "\u00" ++ String (hex_digit (n / 16)) (String (hex_digit (n mod 16)) "")
  else String c "".

Fixpoint json_escape_all (s : string) : string :=
  match s with
  | EmptyString => ""
  | String c rest => json_escape c ++ json_escape_all rest
  end.

Definition dquote : string := String "034"%char "".

(** [JSON.stringify(s)] for a string [s]. *)
Definition JSON_stringify (s : string) : string :=
  dquote ++ json_escape_all s ++ dquote.

End Js.

(* ================================================================== *)
(** ** External collaborators *)

(** [mcp.getTools()]: the tool names. *)
Definition Tools : Type := list string.

(** [new Agent({ name, description, tools, model, ... })]. *)
Record Agent : Type := mkAgent {
  agent_name : string;
  agent_description : string;
  agent_tools : Tools;
  agent_model : string
}.

Record Message : Type := mkMessage {
  role : string;
  content : JsValue
}.

(** Agent Facade contract: [generate(messages)] resolves with [{ text }],
    [text] a string, or rejects with an [Error] carrying a message. *)
Inductive AgentOutcome : Type :=
| Fulfilled (text : string)
| Rejected (message : string).

(** What a call of [generate] can do as far as JavaScript goes: resolve with
    [{ text }] or reject with any value at all. *)
Inductive FacadeOutcome : Type :=
| FacadeText (text : string)
| FacadeThrows (error : JsValue).

(** What the process is run against: the environment variable read by the
    second step, the tool provisioning and the Agent Facade. *)
Record World : Type := mkWorld {
  ANTHROPIC_API_KEY : option string;
  mcp_getTools : Completion Tools;
  Agent_generate : Agent -> list Message -> AgentOutcome
}.

(** Calls recorded while the program runs.  [FnImporter] stands for the
    code that imports the module and calls its exported functions. *)
Inductive Fn : Type :=
| FnImporter
| FnGetMastra
| FnGetWebSearchAgent
| FnInitializeMastra
| FnCreateWebSearchAgent.

Inductive Event : Type :=
| EvInvoke (caller callee : Fn)
| EvGetTools
| EvGenerate (agent : Agent) (messages : list Message).

(* ================================================================== *)
(** ** Effects: thrown values and the record of calls *)

Definition Eff (A : Type) : Type := (Completion A * list Event)%type.

Module Eff.

Definition ret {A} (a : A) : Eff A := (Return a, []).

Definition throw {A} (e : JsValue) : Eff A := (Throw e, []).

Definition emit (ev : Event) : Eff unit := (Return tt, [ev]).

Definition lift {A} (c : Completion A) : Eff A := (c, []).

Definition bind {A B} (m : Eff A) (f : A -> Eff B) : Eff B :=
  match m with
  | (Return a, evs) => let '(r, evs') := f a in (r, (evs ++ evs')%list)
  | (Throw e, evs) => (Throw e, evs)
  end.

(** [try { body } catch (error) { handler error }]. *)
Definition try_catch {A} (body : Eff A) (handler : JsValue -> Eff A) : Eff A :=
  match body with
  | (Return a, evs) => (Return a, evs)
  | (Throw e, evs) => let '(r, evs') := handler e in (r, (evs ++ evs')%list)
  end.

End Eff.

Declare Scope eff_scope.
Delimit Scope eff_scope with eff.
Notation "x <- m ;; k" := (Eff.bind m (fun x => k))
  (at level 61, m at next level, right associativity) : eff_scope.
Notation "m ;;; k" := (Eff.bind m (fun _ => k))
  (at level 61, right associativity) : eff_scope.

(* ================================================================== *)
(** ** The workflow steps *)

Definition search_step_id : string := "search-step".
Definition process_results_step_id : string := "process-results-step".

Definition default_search_query : string :=
  "No query provided, using default search".
Definition default_response : string :=
  "No query provided, using default response".
Definition fallback_answer : string :=
  "これは日本の首都に関する情報です。東京は日本の首都であり、世界最大の都市圏の一つです。人口は約1,400万人で、関東平野に位置しています。政治、経済、文化の中心地であり、多くの企業や大学が集まっています。1868年に江戸から東京に改名され、明治維新以降、日本の首都となりました。".
Definition error_answer_prefix : string :=
  "検索クエリの処理中にエラーが発生しました。別のクエリをお試しください。エラー詳細: ".

Definition query_output (v : JsValue) : JsValue := JObj [("query", v)].
Definition answer_output (s : string) : JsValue := JObj [("answer", JStr s)].

Section Steps.

Variable w : World.

Open Scope eff_scope.

(** [context.context?.triggerData?.query] *)
Definition trigger_query (context : JsValue) : Completion JsValue :=
  match Js.get context "context" with
  | Return ctx => Return (Js.opt_get (Js.opt_get ctx "triggerData") "query")
  | Throw e => Throw e
  end.

(** [context.context?.steps?.['search-step']?.output?.query] *)
Definition previous_step_query (context : JsValue) : Completion JsValue :=
  match Js.get context "context" with
  | Return ctx =>
      Return (Js.opt_get
                (Js.opt_get
                   (Js.opt_get (Js.opt_get ctx "steps") search_step_id)
                   "output")
                "query")
  | Throw e => Throw e
  end.

(** The query [searchStep] works on: [searchQuery] of its [execute]. *)
Definition searchStep_resolve (context : JsValue) : Completion JsValue :=
  trigger_query context.

Definition searchStep_execute (context : JsValue) : Eff JsValue :=
  searchQuery <- Eff.lift (searchStep_resolve context) ;;
  if negb (Js.truthy searchQuery)
  then Eff.ret (query_output (JStr default_search_query))
  else Eff.ret (query_output searchQuery).

(** The query [processResultsStep] works on:
    [previousStepQuery || triggerQuery]. *)
Definition processResultsStep_resolve (context : JsValue) : Completion JsValue :=
  match previous_step_query context with
  | Return previousStepQuery =>
      match trigger_query context with
      | Return triggerQuery => Return (Js.or previousStepQuery triggerQuery)
      | Throw e => Throw e
      end
  | Throw e => Throw e
  end.

(** [!process.env.ANTHROPIC_API_KEY ||
     process.env.ANTHROPIC_API_KEY === 'dummy-key'] *)
Definition api_key_invalid : bool :=
  match ANTHROPIC_API_KEY w with
  | None => true
  | Some k => (k =? "") || (k =? "dummy-key")
  end.

(** [await webSearchAgent.generate(messages)], then [result.text], for a
    facade of which nothing is assumed about the value it rejects with. *)
Definition generate_with (facade : Agent -> list Message -> FacadeOutcome)
    (webSearchAgent : Agent) (messages : list Message) : Eff string :=
  Eff.emit (EvGenerate webSearchAgent messages) ;;;
  match facade webSearchAgent messages with
  | FacadeText text => Eff.ret text
  | FacadeThrows error => Eff.throw error
  end.

(** The facade of the world [w]: a rejection is an [Error] object. *)
Definition world_facade (webSearchAgent : Agent) (messages : list Message)
  : FacadeOutcome :=
  match Agent_generate w webSearchAgent messages with
  | Fulfilled text => FacadeText text
  | Rejected message => FacadeThrows (JError message)
  end.

(** The [catch (error)] block of [processResultsStep]. *)
Definition processResultsStep_catch (error : JsValue) : Eff JsValue :=
  message <- Eff.lift (Js.get error "message") ;;
  Eff.ret (answer_output (error_answer_prefix ++ Js.to_string message)).

(** [processResultsStep.execute], over any behaviour of the facade. *)
Definition processResultsStep_execute_with
    (facade : Agent -> list Message -> FacadeOutcome)
    (webSearchAgent : Agent) (context : JsValue) : Eff JsValue :=
  searchQuery <- Eff.lift (processResultsStep_resolve context) ;;
  if negb (Js.truthy searchQuery)
  then Eff.ret (answer_output default_response)
  else
    Eff.try_catch
      (if api_key_invalid
       then Eff.ret (answer_output fallback_answer)
       else
         text <- generate_with facade webSearchAgent
                   [mkMessage "user" searchQuery] ;;
         Eff.ret (answer_output (Js.JSON_stringify text)))
      processResultsStep_catch.

(** [processResultsStep.execute] in the world [w]. *)
Definition processResultsStep_execute (webSearchAgent : Agent)
    (context : JsValue) : Eff JsValue :=
  processResultsStep_execute_with world_facade webSearchAgent context.

End Steps.

(* ================================================================== *)
(** ** The workflow library *)

(** Modelled from the spec: the classes [Step], [Workflow] and [Mastra] come
    from the package [@mastra/core], which is not part of the repository.
    A step is an identifier and an execution function over the context
    (spec, section 3); the declared input shape is documentation and is left
    out. *)
Record Step : Type := mkStep {
  id : string;
  description : string;
  execute : JsValue -> Eff JsValue
}.

(** Modelled from the spec: a workflow is a name, an ordered sequence of
    steps and a [committed] flag (spec, section 3). *)
Record Workflow : Type := mkWorkflow {
  name : string;
  steps : list Step;
  committed : bool
}.

(** Modelled from the spec: the context store of a run holds the trigger
    data, the per-step overrides and the outputs of the steps executed so
    far, in execution order (spec, section 3). *)
Record ContextStore : Type := mkContextStore {
  triggerData : JsValue;
  stepOverrides : list (string * JsValue);
  stepOutputs : list (string * JsValue)
}.

Module Engine.

Open Scope eff_scope.

Definition new_Workflow (name : string) : Workflow := mkWorkflow name [] false.

(** Modelled from the spec: [addStep] of section 4.3, which the source
    calls as [workflow.step(s)] and [.then(s)]: appends, and fails on a
    committed workflow or a duplicate step id. *)
Definition Workflow_step (wf : Workflow) (s : Step) : Completion Workflow :=
  if committed wf then Throw (JError "WorkflowAlreadyCommitted")
  else if existsb (fun s' => id s' =? id s) (steps wf)
  then Throw (JError "DuplicateStepId")
  else Return (mkWorkflow (name wf) (steps wf ++ [s])%list false).

Definition Workflow_then := Workflow_step.

(** Modelled from the spec: [commit] of section 4.3 freezes the sequence. *)
Definition Workflow_commit (wf : Workflow) : Workflow :=
  mkWorkflow (name wf) (steps wf) true.

(** Modelled from the spec: the object a step's [execute] receives.  The
    source reads the trigger data at [context.context.triggerData] and the
    output of step [i] at [context.context.steps[i].output]. *)
Definition execution_context (cs : ContextStore) : JsValue :=
  JObj [("context",
         JObj [("triggerData", triggerData cs);
               ("stepOverrides", JObj (stepOverrides cs));
               ("steps",
                JObj (map (fun '(i, out) => (i, JObj [("output", out)]))
                          (stepOutputs cs)))])].

Definition record_output (cs : ContextStore) (i : string) (out : JsValue)
  : ContextStore :=
  mkContextStore (triggerData cs) (stepOverrides cs)
                 (stepOutputs cs ++ [(i, out)])%list.

(** Modelled from the spec: the execution loop of section 4.4: each step
    in order, its output appended to the store under its id; an exception
    that escapes a step ends the run. *)
Fixpoint run_steps (ss : list Step) (cs : ContextStore) : Eff ContextStore :=
  match ss with
  | [] => Eff.ret cs
  | s :: rest =>
      out <- execute s (execution_context cs) ;;
      run_steps rest (record_output cs (id s) out)
  end.

Definition final_output (cs : ContextStore) : JsValue :=
  last (map snd (stepOutputs cs)) JUndefined.

(** Modelled from the spec: [run(workflow, triggerData, stepOverrides)] of
    section 4.4: refuses a workflow that is not committed, seeds a fresh
    store, runs the steps and returns the final step output. *)
Definition run (wf : Workflow) (td : JsValue)
    (overrides : list (string * JsValue)) : Eff JsValue :=
  if committed wf
  then cs <- run_steps (steps wf) (mkContextStore td overrides []) ;;
       Eff.ret (final_output cs)
  else Eff.throw (JError "WorkflowNotCommitted").

(** Modelled from the spec: [workflow.createRun().start(args)].  The
    source passes [{ triggerData, input, steps: { id: { input } } }]; the
    per-step [input] objects are the overrides of section 4.4. *)
Definition Workflow_start (wf : Workflow) (td input : JsValue)
    (per_step : list (string * JsValue)) : Eff JsValue :=
  run wf td (map (fun '(i, v) => (i, Js.opt_get v "input")) per_step).

End Engine.

(** Modelled from the spec: the registry of workflows by name; looking up a
    name that is not registered fails (spec, sections 4.4 and 7). *)
Record Mastra : Type := mkMastra {
  workflows : list (string * Workflow)
}.

Fixpoint Mastra_getWorkflow (ws : list (string * Workflow)) (n : string)
  : Completion Workflow :=
  match ws with
  | [] => Throw (JError ("Workflow " ++ n ++ " not found"))
  | (n', wf) :: rest => if n =? n' then Return wf else Mastra_getWorkflow rest n
  end.

(* ================================================================== *)
(** ** Module state and the exported functions *)

(** A promise: its identity and the outcome it settles with. *)
Record Promise (A : Type) : Type := mkPromise {
  pid : nat;
  settles : Completion A
}.
Arguments mkPromise {A} pid settles.
Arguments pid {A} p.
Arguments settles {A} p.

(** The two module-level variables, the supply of promise identities and the
    calls made so far. *)
Record ModuleState : Type := mkModuleState {
  mastraPromise : option (Promise Mastra);
  webSearchAgentPromise : option (Promise Agent);
  next_pid : nat;
  calls : list Event
}.

Definition initial_state : ModuleState := mkModuleState None None 0 [].

Definition M (A : Type) : Type := ModuleState -> Completion A * ModuleState.

Module M.

Definition ret {A} (a : A) : M A := fun st => (Return a, st).

Definition bind {A B} (m : M A) (f : A -> M B) : M B :=
  fun st =>
    match m st with
    | (Return a, st') => f a st'
    | (Throw e, st') => (Throw e, st')
    end.

Definition lift {A} (c : Completion A) : M A := fun st => (c, st).

(** Runs a computation of the step level, appending the calls it made. *)
Definition lift_eff {A} (m : Eff A) : M A :=
  fun st =>
    (fst m,
     mkModuleState (mastraPromise st) (webSearchAgentPromise st)
                   (next_pid st) (calls st ++ snd m)%list).

(** [await p]. *)
Definition await {A} (p : Promise A) : M A := lift (settles p).

(** [try { body } catch (error) { handler error }]. *)
Definition try_catch {A} (body : M A) (handler : JsValue -> M A) : M A :=
  fun st =>
    match body st with
    | (Return a, st') => (Return a, st')
    | (Throw e, st') => handler e st'
    end.

End M.

Declare Scope mod_scope.
Delimit Scope mod_scope with mst.
Notation "x <- m ;; k" := (M.bind m (fun x => k))
  (at level 61, m at next level, right associativity) : mod_scope.

Definition workflow_name : string := "web-search-workflow".

Section Program.

Variable w : World.

(** The body of [createWebSearchAgent].  The source function takes no
    argument: [caller] only labels the call in the record, so that the calls
    made by [getWebSearchAgent], by [initializeMastra] and by the importer
    can be told apart. *)
Definition createWebSearchAgent (caller : Fn) : Eff Agent :=
  (Eff.emit (EvInvoke caller FnCreateWebSearchAgent) ;;;
   Eff.emit EvGetTools ;;;
   mcpTools <- Eff.lift (mcp_getTools w) ;;
   Eff.ret (mkAgent "web-search-agent"
              "An agent that performs sophisticated web search and analysis"
              mcpTools "claude-3-7-sonnet-20250219"))%eff.

Definition searchStep : Step :=
  mkStep search_step_id "Searches the web for information" searchStep_execute.

Definition processResultsStep (webSearchAgent : Agent) : Step :=
  mkStep process_results_step_id
         "Processes search results and provides an answer"
         (processResultsStep_execute w webSearchAgent).

Definition initializeMastra : Eff Mastra :=
  (Eff.emit (EvInvoke FnGetMastra FnInitializeMastra) ;;;
   webSearchAgent <- createWebSearchAgent FnInitializeMastra ;;
   wf1 <- Eff.lift (Engine.Workflow_step (Engine.new_Workflow workflow_name)
                                         searchStep) ;;
   wf2 <- Eff.lift (Engine.Workflow_then wf1 (processResultsStep webSearchAgent)) ;;
   Eff.ret (mkMastra [(workflow_name, Engine.Workflow_commit wf2)]))%eff.

(** A call of the exported [async function createWebSearchAgent]: a new
    promise that settles as the body does. *)
Definition call_createWebSearchAgent : M (Promise Agent) :=
  fun st =>
    let body := createWebSearchAgent FnImporter in
    (Return (mkPromise (next_pid st) (fst body)),
     mkModuleState (mastraPromise st) (webSearchAgentPromise st)
                   (S (next_pid st)) (calls st ++ snd body)%list).

(** [async function getMastra() {
       if (!mastraPromise) mastraPromise = initializeMastra();
       return mastraPromise; }]
    Being [async], every call returns a promise of its own, which is resolved
    with the cached promise and so settles as the cached promise does.  The
    body of [initializeMastra] is recorded, and its outcome fixed, when its
    promise is created. *)
Definition getMastra : M (Promise Mastra) :=
  fun st =>
    match mastraPromise st with
    | Some p =>
        (Return (mkPromise (next_pid st) (settles p)),
         mkModuleState (Some p) (webSearchAgentPromise st)
                       (S (next_pid st)) (calls st))
    | None =>
        let p := mkPromise (S (next_pid st)) (fst initializeMastra) in
        (Return (mkPromise (next_pid st) (settles p)),
         mkModuleState (Some p) (webSearchAgentPromise st)
                       (S (S (next_pid st)))
                       (calls st ++ snd initializeMastra)%list)
    end.

(** [async function getWebSearchAgent() {
       if (!webSearchAgentPromise) webSearchAgentPromise = createWebSearchAgent();
       return webSearchAgentPromise; }]
    As for [getMastra], every call returns a promise of its own that settles
    as the cached one. *)
Definition getWebSearchAgent : M (Promise Agent) :=
  fun st =>
    match webSearchAgentPromise st with
    | Some p =>
        (Return (mkPromise (next_pid st) (settles p)),
         mkModuleState (mastraPromise st) (Some p)
                       (S (next_pid st)) (calls st))
    | None =>
        let body := createWebSearchAgent FnGetWebSearchAgent in
        let p := mkPromise (S (next_pid st)) (fst body) in
        (Return (mkPromise (next_pid st) (settles p)),
         mkModuleState (mastraPromise st) (Some p)
                       (S (S (next_pid st)))
                       (calls st ++ snd body)%list)
    end.

(** [const { query } = req.query;] *)
Definition request_query (req : JsValue) : Completion JsValue :=
  match Js.get req "query" with
  | Return q =>
      if Js.is_nullish q
      then Throw (JError ("Cannot destructure property 'query' of 'req.query' as it is "
                            ++ Js.to_string q ++ "."))
      else Return (Js.opt_get q "query")
  | Throw e => Throw e
  end.

Definition success_result (result : JsValue) : JsValue :=
  JObj [("success", JBool true); ("result", result)].

Definition failure_result (error : JsValue) : JsValue :=
  JObj [("success", JBool false); ("error", error)].

(** The [try] block of [runWebSearchAgent]. *)
Definition runWebSearchAgent_try (query : JsValue) : M JsValue :=
  (p <- getMastra ;;
   mastra <- M.await p ;;
   workflow <- M.lift (Mastra_getWorkflow (workflows mastra) workflow_name) ;;
   result <- M.lift_eff
               (Engine.Workflow_start workflow
                  (query_output query) (query_output query)
                  [(search_step_id, JObj [("input", query_output query)]);
                   (process_results_step_id, JObj [("input", query_output query)])]) ;;
   M.ret (success_result result))%mst.

(** The [catch (error)] block of [runWebSearchAgent]. *)
Definition runWebSearchAgent_catch (error : JsValue) : M JsValue :=
  M.ret (failure_result
           (if Js.instanceof_Error error
            then Js.opt_get error "message"
            else JStr "Failed to run web search agent")).

Definition runWebSearchAgent (req : JsValue) : M JsValue :=
  (query <- M.lift (request_query req) ;;
   if negb (Js.truthy query)
   then M.ret (failure_result (JStr "No prompt provided"))
   else M.try_catch (runWebSearchAgent_try query) runWebSearchAgent_catch)%mst.

End Program.

(** A request whose query string carries [query]. *)
Definition request (query : JsValue) : JsValue :=
  JObj [("query", JObj [("query", query)])].

(* ================================================================== *)
(** ** Notions used in the statements *)

(** [m] occurs in [s]. *)
Definition contains (s m : string) : Prop :=
  exists pre post, s = pre ++ m ++ post.

(** The agent [createWebSearchAgent] builds from the provisioned tools. *)
Definition webSearchAgent_of (tools : Tools) : Agent :=
  mkAgent "web-search-agent"
          "An agent that performs sophisticated web search and analysis"
          tools "claude-3-7-sonnet-20250219".

(** The workflow [initializeMastra] builds and commits. *)
Definition webSearchWorkflow (w : World) (webSearchAgent : Agent) : Workflow :=
  mkWorkflow workflow_name [searchStep; processResultsStep w webSearchAgent] true.

(** The answer of the second step once it has found a query [q]: the canned
    answer, the stringified text of the agent, or the error explanation. *)
Definition agent_answer (w : World) (webSearchAgent : Agent) (q : JsValue) : string :=
  if api_key_invalid w then fallback_answer
  else match Agent_generate w webSearchAgent [mkMessage "user" q] with
       | Fulfilled text => Js.JSON_stringify text
       | Rejected message => error_answer_prefix ++ message
       end.

(** A context store in which the trigger data, an override for step [i] and
    the output of the first step each define [query]. *)
Definition layered_store (i : string) (override previous trigger : JsValue)
  : ContextStore :=
  mkContextStore (query_output trigger)
                 [(i, query_output override)]
                 [(search_step_id, query_output previous)].

(** The query the search step hands on to the next step. *)
Definition handed_on (td : JsValue) : JsValue :=
  if Js.truthy (Js.opt_get td "query")
  then Js.opt_get td "query"
  else JStr default_search_query.

(** A cached Mastra promise, if any, is the one [initializeMastra] made. *)
Definition coherent (w : World) (st : ModuleState) : Prop :=
  forall p, mastraPromise st = Some p -> settles p = fst (initializeMastra w).

(** Calls of the four exported functions, in the order they are made. *)
Inductive Call : Type :=
| CallCreateWebSearchAgent
| CallGetMastra
| CallGetWebSearchAgent
| CallRunWebSearchAgent (req : JsValue).

Definition perform (w : World) (st : ModuleState) (c : Call) : ModuleState :=
  match c with
  | CallCreateWebSearchAgent => snd (call_createWebSearchAgent w st)
  | CallGetMastra => snd (getMastra w st)
  | CallGetWebSearchAgent => snd (getWebSearchAgent w st)
  | CallRunWebSearchAgent req => snd (runWebSearchAgent w req st)
  end.

Definition perform_all (w : World) (cs : list Call) (st : ModuleState)
  : ModuleState :=
  fold_left (perform w) cs st.

(** The states the module can be in: those a sequence of calls leads to from
    the start of the process. *)
Definition reachable (w : World) (st : ModuleState) : Prop :=
  exists cs, st = perform_all w cs initial_state.

Definition Fn_eqb (a b : Fn) : bool :=
  match a, b with
  | FnImporter, FnImporter
  | FnGetMastra, FnGetMastra
  | FnGetWebSearchAgent, FnGetWebSearchAgent
  | FnInitializeMastra, FnInitializeMastra
  | FnCreateWebSearchAgent, FnCreateWebSearchAgent => true
  | _, _ => false
  end.

Definition is_invoke (caller callee : Fn) (ev : Event) : bool :=
  match ev with
  | EvInvoke a b => Fn_eqb a caller && Fn_eqb b callee
  | _ => false
  end.

(** How often [caller] has invoked [callee]. *)
Definition invocations (caller callee : Fn) (evs : list Event) : nat :=
  length (filter (is_invoke caller callee) evs).

Definition is_generate (ev : Event) : bool :=
  match ev with
  | EvGenerate _ _ => true
  | _ => false
  end.

(** How often the Agent Facade has been called. *)
Definition generate_calls (evs : list Event) : nat :=
  length (filter is_generate evs).

(** The state [st] after the further calls [evs]. *)
Definition add_calls (st : ModuleState) (evs : list Event) : ModuleState :=
  mkModuleState (mastraPromise st) (webSearchAgentPromise st) (next_pid st)
                (calls st ++ evs)%list.

(** The record of calls agrees with the caches: [initializeMastra] has been
    invoked by [getMastra] once if a Mastra promise is cached and never
    otherwise, and likewise [createWebSearchAgent] by [getWebSearchAgent]. *)
Definition counted (st : ModuleState) : Prop :=
  invocations FnGetMastra FnInitializeMastra (calls st)
    = match mastraPromise st with Some _ => 1 | None => 0 end
  /\ invocations FnGetWebSearchAgent FnCreateWebSearchAgent (calls st)
     = match webSearchAgentPromise st with Some _ => 1 | None => 0 end.

(** The calls the workflow makes in a run on the query [q]: one call of the
    Agent Facade when the credential is usable, none otherwise. *)
Definition run_calls (w : World) (agent : Agent) (q : JsValue) : list Event :=
  if negb (api_key_invalid w)
  then [EvGenerate agent [mkMessage "user" q]]
  else [].

(** What the [catch] block of the entry point reports for the exception
    [e]. *)
Definition reported (e : JsValue) : JsValue :=
  if Js.instanceof_Error e
  then Js.opt_get e "message"
  else JStr "Failed to run web search agent".

Definition is_getTools (ev : Event) : bool :=
  match ev with
  | EvGetTools => true
  | _ => false
  end.

(** How often [mcp.getTools()] has been called. *)
Definition getTools_calls (evs : list Event) : nat :=
  length (filter is_getTools evs).

(** The calls of the Agent Facade among [evs], in order. *)
Definition facade_calls (evs : list Event) : list Event :=
  filter is_generate evs.





(** A cached agent promise, if any, is the one [createWebSearchAgent]
    made for [getWebSearchAgent]. *)
Definition agent_coherent (w : World) (st : ModuleState) : Prop :=
  forall p,
    webSearchAgentPromise st = Some p ->
    settles p = fst (createWebSearchAgent w FnGetWebSearchAgent).

(** The characters [JSON.stringify] writes as an escape sequence: the
    control characters, the double quote and the backslash. *)
Definition needs_escape (c : ascii) : bool :=
  let n := nat_of_ascii c in
  Nat.ltb n 32 || Nat.eqb n 34 || Nat.eqb n 92.

Fixpoint no_escapes (s : string) : bool :=
  match s with
  | EmptyString => true
  | String c rest => negb (needs_escape c) && no_escapes rest
  end.

(* ================================================================== *)
(** ** Properties of the steps on their own *)

Section StepFacts.

Variable w : World.

Lemma trigger_query_execution_context (cs : ContextStore) :
  trigger_query (Engine.execution_context cs)
    = Return (Js.opt_get (triggerData cs) "query").
Proof. reflexivity. Qed.

Lemma previous_step_query_none td ov :
  previous_step_query (Engine.execution_context (mkContextStore td ov []))
    = Return JUndefined.
Proof. reflexivity. Qed.

Lemma previous_step_query_search td ov out rest :
  previous_step_query
    (Engine.execution_context
       (mkContextStore td ov ((search_step_id, out) :: rest)))
    = Return (Js.opt_get out "query").
Proof. reflexivity. Qed.

Lemma searchStep_execute_eq context q :
  searchStep_resolve context = Return q ->
  searchStep_execute context
    = Eff.ret (query_output (if Js.truthy q then q else JStr default_search_query)).
Proof.
  intros H. unfold searchStep_execute. rewrite H. cbn.
  destruct (Js.truthy q); reflexivity.
Qed.

Lemma searchStep_execute_silent context : snd (searchStep_execute context) = [].
Proof.
  unfold searchStep_execute.
  destruct (searchStep_resolve context) as [q|e]; cbn; [|reflexivity].
  destruct (Js.truthy q); reflexivity.
Qed.

Lemma truthy_or_left a b : Js.truthy a = true -> Js.or a b = a.
Proof. intros H. unfold Js.or. now rewrite H. Qed.

Lemma truthy_or_right a b : Js.truthy a = false -> Js.or a b = b.
Proof. intros H. unfold Js.or. now rewrite H. Qed.

Lemma processResultsStep_execute_eq agent context q :
  processResultsStep_resolve context = Return q ->
  fst (processResultsStep_execute w agent context)
    = Return (answer_output
                (if Js.truthy q then agent_answer w agent q else default_response)).
Proof.
  intros H.
  unfold processResultsStep_execute, processResultsStep_execute_with, agent_answer.
  rewrite H. cbn.
  destruct (Js.truthy q); cbn; [|reflexivity].
  destruct (api_key_invalid w); cbn; [reflexivity|].
  unfold generate_with, world_facade.
  destruct (Agent_generate w agent [mkMessage "user" q]); reflexivity.
Qed.

Lemma processResultsStep_execute_events agent context :
  snd (processResultsStep_execute w agent context) = []
  \/ exists q,
      api_key_invalid w = false
      /\ snd (processResultsStep_execute w agent context)
         = [EvGenerate agent [mkMessage "user" q]].
Proof.
  unfold processResultsStep_execute, processResultsStep_execute_with.
  destruct (processResultsStep_resolve context) as [q|e]; cbn; [|now left].
  destruct (Js.truthy q); cbn; [|now left].
  destruct (api_key_invalid w); cbn; [now left|].
  right. exists q. split; [reflexivity|].
  unfold generate_with, world_facade.
  destruct (Agent_generate w agent [mkMessage "user" q]); reflexivity.
Qed.

End StepFacts.

(* ================================================================== *)
(** ** Context resolution *)

(** C10. The output of the search step is a function of the trigger data's
    query alone: two execution contexts on which
    [context.context?.triggerData?.query] evaluates alike give the same
    output, whatever overrides and step outputs they hold. *)
Theorem searchStep_output_depends_on_trigger_query_only (c1 c2 : JsValue) :
  trigger_query c1 = trigger_query c2 ->
  searchStep_execute c1 = searchStep_execute c2.
Proof.
  intros H. unfold searchStep_execute, searchStep_resolve. now rewrite H.
Qed.

Lemma searchStep_output_depends_on_trigger_query_only_witness :
  let c1 := Engine.execution_context
              (layered_store search_step_id (JStr "o1") (JStr "p1") (JStr "t")) in
  let c2 := Engine.execution_context
              (mkContextStore (query_output (JStr "t")) [] []) in
  c1 <> c2 /\ searchStep_execute c1 = searchStep_execute c2.
Proof.
  split.
  - discriminate.
  - apply (searchStep_output_depends_on_trigger_query_only
             (Engine.execution_context
                (layered_store search_step_id (JStr "o1") (JStr "p1") (JStr "t")))
             (Engine.execution_context
                (mkContextStore (query_output (JStr "t")) [] []))).
    reflexivity.
Defined.

(** C3, as stated, fails: with an override ["o"], a preceding output ["p"]
    and trigger data ["t"], neither step resolves its query to the
    override. *)
Lemma resolution_ignores_override :
  searchStep_resolve
    (Engine.execution_context
       (layered_store search_step_id (JStr "o") (JStr "p") (JStr "t")))
    <> Return (JStr "o")
  /\ processResultsStep_resolve
       (Engine.execution_context
          (layered_store process_results_step_id (JStr "o") (JStr "p") (JStr "t")))
       <> Return (JStr "o").
Proof. split; discriminate. Qed.

(** C3, amended. The search step resolves its query to the trigger data's
    query whatever overrides and step outputs the context holds.  The
    process-results step resolves it to the query of the search step's
    output when that is truthy and to the trigger data's query otherwise, in
    particular when the search step has no output; overrides are never
    consulted. *)
Theorem resolution_order :
  forall (td : JsValue) (ov outs : list (string * JsValue)) (i : string)
         (o p : JsValue),
    searchStep_resolve
      (Engine.execution_context (mkContextStore td ov outs))
      = Return (Js.opt_get td "query")
    /\ processResultsStep_resolve
         (Engine.execution_context
            (mkContextStore td ((i, query_output o) :: ov)
                            [(search_step_id, query_output p)]))
       = Return (if Js.truthy p then p else Js.opt_get td "query")
    /\ processResultsStep_resolve
         (Engine.execution_context (mkContextStore td ov []))
       = Return (Js.opt_get td "query").
Proof.
  intros td ov outs i o p. split; [reflexivity | split].
  - unfold processResultsStep_resolve.
    rewrite previous_step_query_search, trigger_query_execution_context.
    reflexivity.
  - unfold processResultsStep_resolve.
    rewrite previous_step_query_none, trigger_query_execution_context.
    reflexivity.
Qed.

(** C8, as stated, fails: the search step's output defines [query] as the
    empty string, and the process-results step resolves to the trigger
    data's query, not to the empty string. *)
Lemma empty_previous_query_falls_through :
  processResultsStep_resolve
    (Engine.execution_context
       (mkContextStore (query_output (JStr "t")) []
                       [(search_step_id, query_output (JStr ""))]))
    <> Return (JStr "").
Proof. discriminate. Qed.

(** C8, amended. When the search step's output defines [query] as the empty
    string, the process-results step's resolution falls through to the
    trigger data's query. *)
Theorem empty_previous_query_resolves_to_trigger (context t : JsValue) :
  previous_step_query context = Return (JStr "") ->
  trigger_query context = Return t ->
  processResultsStep_resolve context = Return t.
Proof.
  intros Hp Ht. unfold processResultsStep_resolve. now rewrite Hp, Ht.
Qed.

Lemma empty_previous_query_resolves_to_trigger_witness :
  processResultsStep_resolve
    (Engine.execution_context
       (mkContextStore (query_output (JStr "t")) []
                       [(search_step_id, query_output (JStr ""))]))
    = Return (JStr "t").
Proof.
  apply (empty_previous_query_resolves_to_trigger
           (Engine.execution_context
              (mkContextStore (query_output (JStr "t")) []
                              [(search_step_id, query_output (JStr ""))]))
           (JStr "t")); reflexivity.
Defined.

(* ================================================================== *)
(** ** Running the workflow *)

Lemma Eff_fst_bind {A B} (m : Eff A) (f : A -> Eff B) (a : A) :
  fst m = Return a -> fst (Eff.bind m f) = fst (f a).
Proof.
  destruct m as [c evs]. cbn. intros ->. cbn. now destruct (f a).
Qed.

Lemma Eff_fst_bind_throw {A B} (m : Eff A) (f : A -> Eff B) (e : JsValue) :
  fst m = Throw e -> fst (Eff.bind m f) = Throw e.
Proof.
  destruct m as [c evs]. cbn. now intros ->.
Qed.

Lemma Eff_snd_bind {A B} (m : Eff A) (f : A -> Eff B) (a : A) :
  fst m = Return a -> snd (Eff.bind m f) = (snd m ++ snd (f a))%list.
Proof.
  destruct m as [c evs]. cbn. intros ->. cbn. now destruct (f a).
Qed.

Section RunFacts.

Variable w : World.

Lemma handed_on_truthy td : Js.truthy (handed_on td) = true.
Proof.
  unfold handed_on.
  destruct (Js.truthy (Js.opt_get td "query")) eqn:E; [exact E | reflexivity].
Qed.

Lemma searchStep_in_run td ov :
  searchStep_execute (Engine.execution_context (mkContextStore td ov []))
    = Eff.ret (query_output (handed_on td)).
Proof. now apply searchStep_execute_eq. Qed.

Lemma processResultsStep_in_run agent td ov :
  fst (processResultsStep_execute w agent
         (Engine.execution_context
            (mkContextStore td ov
               [(search_step_id, query_output (handed_on td))])))
    = Return (answer_output (agent_answer w agent (handed_on td))).
Proof.
  rewrite (processResultsStep_execute_eq w agent _ (handed_on td)).
  - now rewrite handed_on_truthy.
  - unfold processResultsStep_resolve.
    rewrite previous_step_query_search, trigger_query_execution_context.
    cbn. now rewrite truthy_or_left by apply handed_on_truthy.
Qed.

(** The store a run of the committed workflow ends with. *)
Lemma run_steps_webSearchWorkflow agent td ov :
  fst (Engine.run_steps (steps (webSearchWorkflow w agent))
                        (mkContextStore td ov []))
    = Return (mkContextStore td ov
                [(search_step_id, query_output (handed_on td));
                 (process_results_step_id,
                  answer_output (agent_answer w agent (handed_on td)))]).
Proof.
  cbn [webSearchWorkflow steps Engine.run_steps].
  cbn [searchStep execute id].
  rewrite searchStep_in_run.
  rewrite (Eff_fst_bind _ _ (query_output (handed_on td))) by reflexivity.
  cbn [processResultsStep execute id Engine.record_output
       triggerData stepOverrides stepOutputs app].
  pose proof (processResultsStep_in_run agent td ov) as H.
  rewrite (Eff_fst_bind _ _ _ H). reflexivity.
Qed.

Lemma run_webSearchWorkflow agent td ov :
  fst (Engine.run (webSearchWorkflow w agent) td ov)
    = Return (answer_output (agent_answer w agent (handed_on td))).
Proof.
  unfold Engine.run. cbn [webSearchWorkflow committed].
  rewrite (Eff_fst_bind _ _ _ (run_steps_webSearchWorkflow agent td ov)).
  reflexivity.
Qed.

Lemma initializeMastra_events :
  snd (initializeMastra w)
    = [EvInvoke FnGetMastra FnInitializeMastra;
       EvInvoke FnInitializeMastra FnCreateWebSearchAgent;
       EvGetTools].
Proof.
  unfold initializeMastra, createWebSearchAgent.
  destruct (mcp_getTools w); reflexivity.
Qed.

Lemma initializeMastra_ok tools :
  mcp_getTools w = Return tools ->
  fst (initializeMastra w)
    = Return (mkMastra [(workflow_name,
                         webSearchWorkflow w (webSearchAgent_of tools))]).
Proof.
  intros H. unfold initializeMastra, createWebSearchAgent. rewrite H.
  reflexivity.
Qed.

Lemma initializeMastra_failed e :
  mcp_getTools w = Throw e -> fst (initializeMastra w) = Throw e.
Proof.
  intros H. unfold initializeMastra, createWebSearchAgent. rewrite H.
  reflexivity.
Qed.

End RunFacts.

Section EntryFacts.

Variable w : World.

Lemma coherent_initial : coherent w initial_state.
Proof. intros p H. discriminate H. Qed.

Lemma getMastra_coherent st :
  coherent w st ->
  exists p st',
    getMastra w st = (Return p, st')
    /\ settles p = fst (initializeMastra w)
    /\ mastraPromise st' <> None.
Proof.
  intros Hc. unfold getMastra.
  destruct (mastraPromise st) as [p|] eqn:E.
  - eexists. eexists. split; [reflexivity|].
    split; [exact (Hc p E) | discriminate].
  - eexists. eexists. split; [reflexivity|].
    split; [reflexivity | discriminate].
Qed.

Lemma runWebSearchAgent_try_ok tools st q :
  mcp_getTools w = Return tools ->
  coherent w st ->
  fst (runWebSearchAgent_try w q st)
    = Return (success_result
                (answer_output
                   (agent_answer w (webSearchAgent_of tools)
                                 (handed_on (query_output q))))).
Proof.
  intros Htools Hc.
  destruct (getMastra_coherent st Hc) as (p & st' & Hget & Hp & _).
  rewrite (initializeMastra_ok w tools Htools) in Hp.
  unfold runWebSearchAgent_try, M.bind. rewrite Hget.
  unfold M.await, M.lift. rewrite Hp.
  cbn [workflows Mastra_getWorkflow].
  change (workflow_name =? workflow_name) with true. cbn iota.
  unfold M.lift_eff, Engine.Workflow_start.
  rewrite run_webSearchWorkflow. reflexivity.
Qed.

Lemma runWebSearchAgent_truthy req q st :
  request_query req = Return q ->
  Js.truthy q = true ->
  runWebSearchAgent w req st
    = M.try_catch (runWebSearchAgent_try w q) (runWebSearchAgent_catch) st.
Proof.
  intros Hq Ht. unfold runWebSearchAgent, M.bind, M.lift.
  rewrite Hq, Ht. reflexivity.
Qed.

Lemma runWebSearchAgent_falsy req q st :
  request_query req = Return q ->
  Js.truthy q = false ->
  runWebSearchAgent w req st
    = (Return (failure_result (JStr "No prompt provided")), st).
Proof.
  intros Hq Ht. unfold runWebSearchAgent, M.bind, M.lift.
  rewrite Hq, Ht. reflexivity.
Qed.

Lemma runWebSearchAgent_ok tools req q st :
  mcp_getTools w = Return tools ->
  coherent w st ->
  request_query req = Return q ->
  Js.truthy q = true ->
  fst (runWebSearchAgent w req st)
    = Return (success_result
                (answer_output (agent_answer w (webSearchAgent_of tools) q))).
Proof.
  intros Htools Hc Hq Ht.
  rewrite (runWebSearchAgent_truthy req q st Hq Ht).
  pose proof (runWebSearchAgent_try_ok tools st q Htools Hc) as H.
  unfold M.try_catch.
  destruct (runWebSearchAgent_try w q st) as [[r|e] st'] eqn:E;
    cbn in H; [|discriminate H].
  cbn. rewrite H. unfold handed_on. cbn. now rewrite Ht.
Qed.

Lemma fallback_answer_nonempty : fallback_answer <> "".
Proof. discriminate. Qed.

Lemma JSON_stringify_nonempty s : Js.JSON_stringify s <> "".
Proof. discriminate. Qed.

Lemma error_answer_nonempty m : error_answer_prefix ++ m <> "".
Proof. discriminate. Qed.

Lemma agent_answer_nonempty agent q : agent_answer w agent q <> "".
Proof.
  unfold agent_answer.
  destruct (api_key_invalid w); [apply fallback_answer_nonempty|].
  destruct (Agent_generate w agent [mkMessage "user" q]);
    [apply JSON_stringify_nonempty | apply error_answer_nonempty].
Qed.

End EntryFacts.

(* ================================================================== *)
(** ** Lazy initialisation *)

Section CacheFacts.

Variable w : World.

Lemma runWebSearchAgent_state req st :
  snd (runWebSearchAgent w req st) = st
  \/ snd (runWebSearchAgent w req st) = snd (getMastra w st)
  \/ exists p mastra wf td input per_step,
      fst (getMastra w st) = Return p
      /\ settles p = Return mastra
      /\ Mastra_getWorkflow (workflows mastra) workflow_name = Return wf
      /\ snd (runWebSearchAgent w req st)
         = add_calls (snd (getMastra w st))
                     (snd (Engine.Workflow_start wf td input per_step)).
Proof.
  unfold runWebSearchAgent, M.bind, M.lift.
  destruct (request_query req) as [q|e]; [|now left].
  destruct (negb (Js.truthy q)); [now left|].
  unfold M.try_catch, runWebSearchAgent_try, M.bind, M.await, M.lift.
  destruct (getMastra w st) as [[p|e] st1] eqn:Hget; cbn [fst snd].
  - destruct (settles p) as [mastra|e] eqn:Hp; cbn; [|now right; left].
    destruct (Mastra_getWorkflow (workflows mastra) workflow_name)
      as [wf|e] eqn:Hwf; cbn; [|now right; left].
    right; right. exists p, mastra, wf.
    eexists. eexists. eexists.
    split; [reflexivity|]. split; [exact Hp|]. split; [exact Hwf|].
    unfold M.lift_eff, M.ret, runWebSearchAgent_catch, add_calls.
    match goal with
    | |- context [fst ?m] => destruct (fst m)
    end; reflexivity.
  - now right; left.
Qed.

Lemma getMastra_keeps st p :
  mastraPromise st = Some p ->
  mastraPromise (snd (getMastra w st)) = Some p
  /\ exists r, fst (getMastra w st) = Return r /\ settles r = settles p.
Proof.
  intros H. unfold getMastra. rewrite H. cbn.
  split; [reflexivity|]. eexists. split; reflexivity.
Qed.

Lemma getWebSearchAgent_keeps st p :
  webSearchAgentPromise st = Some p ->
  webSearchAgentPromise (snd (getWebSearchAgent w st)) = Some p
  /\ exists r, fst (getWebSearchAgent w st) = Return r /\ settles r = settles p.
Proof.
  intros H. unfold getWebSearchAgent. rewrite H. cbn.
  split; [reflexivity|]. eexists. split; reflexivity.
Qed.

Lemma getMastra_caches st :
  exists r p,
    fst (getMastra w st) = Return r
    /\ mastraPromise (snd (getMastra w st)) = Some p
    /\ settles r = settles p.
Proof.
  unfold getMastra. destruct (mastraPromise st) as [p0|];
    eexists; eexists; cbn; repeat split.
Qed.


Lemma getMastra_other st :
  webSearchAgentPromise (snd (getMastra w st)) = webSearchAgentPromise st.
Proof. unfold getMastra. now destruct (mastraPromise st). Qed.

Lemma getWebSearchAgent_other st :
  mastraPromise (snd (getWebSearchAgent w st)) = mastraPromise st.
Proof. unfold getWebSearchAgent. now destruct (webSearchAgentPromise st). Qed.

(** A call never replaces a cached promise. *)
Lemma perform_keeps st c :
  (forall p, mastraPromise st = Some p ->
             mastraPromise (perform w st c) = Some p)
  /\ (forall p, webSearchAgentPromise st = Some p ->
                webSearchAgentPromise (perform w st c) = Some p).
Proof.
  destruct c as [| | |req]; cbn [perform].
  - split; intros p H; exact H.
  - split; intros p H.
    + exact (proj1 (getMastra_keeps st p H)).
    + now rewrite getMastra_other.
  - split; intros p H.
    + now rewrite getWebSearchAgent_other.
    + exact (proj1 (getWebSearchAgent_keeps st p H)).
  - destruct (runWebSearchAgent_state req st)
      as [-> | [-> | (p0 & mastra & wf & td & input & ps & _ & _ & _ & ->)]].
    + auto.
    + split; intros p H.
      * exact (proj1 (getMastra_keeps st p H)).
      * now rewrite getMastra_other.
    + split; intros p H; cbn.
      * exact (proj1 (getMastra_keeps st p H)).
      * now rewrite getMastra_other.
Qed.


End CacheFacts.

Lemma invocations_app a b l1 l2 :
  invocations a b (l1 ++ l2)%list = invocations a b l1 + invocations a b l2.
Proof. unfold invocations. now rewrite filter_app, length_app. Qed.

Lemma invocations_generate a b evs :
  Forall (fun ev => is_generate ev = true) evs -> invocations a b evs = 0.
Proof.
  unfold invocations. induction 1 as [|ev evs Hev _ IH]; [reflexivity|].
  destruct ev; cbn in *; try discriminate. exact IH.
Qed.

Section CountFacts.

Variable w : World.

Lemma processResultsStep_execute_generates agent context :
  Forall (fun ev => is_generate ev = true)
         (snd (processResultsStep_execute w agent context)).
Proof.
  destruct (processResultsStep_execute_events w agent context)
    as [-> | (q & _ & ->)]; repeat constructor.
Qed.

Lemma run_webSearchWorkflow_generates agent td ov :
  Forall (fun ev => is_generate ev = true)
         (snd (Engine.run (webSearchWorkflow w agent) td ov)).
Proof.
  unfold Engine.run. cbn [webSearchWorkflow committed steps Engine.run_steps].
  cbn [searchStep execute id]. rewrite searchStep_in_run.
  unfold Eff.bind at 2. unfold Eff.ret at 1.
  cbn [processResultsStep execute id Engine.record_output
       triggerData stepOverrides stepOutputs app].
  pose proof (processResultsStep_execute_generates agent
                (Engine.execution_context
                   (mkContextStore td ov
                      [(search_step_id, query_output (handed_on td))]))) as H.
  destruct (processResultsStep_execute w agent _) as [[out|e] evs];
    cbn in *; rewrite ?app_nil_r; exact H.
Qed.

Lemma coherent_workflow p mastra wf :
  settles p = fst (initializeMastra w) ->
  settles p = Return mastra ->
  Mastra_getWorkflow (workflows mastra) workflow_name = Return wf ->
  exists tools, wf = webSearchWorkflow w (webSearchAgent_of tools).
Proof.
  intros Hinit Hp Hwf. rewrite Hinit in Hp.
  destruct (mcp_getTools w) as [tools|e] eqn:Htools.
  - rewrite (initializeMastra_ok w tools Htools) in Hp.
    injection Hp as <-. cbn in Hwf.
    change (workflow_name =? workflow_name) with true in Hwf. cbn in Hwf.
    injection Hwf as <-. now exists tools.
  - rewrite (initializeMastra_failed w e Htools) in Hp. discriminate Hp.
Qed.

Lemma getMastra_invariant st :
  coherent w st -> counted st ->
  coherent w (snd (getMastra w st)) /\ counted (snd (getMastra w st)).
Proof.
  intros Hc [Hm Ha]. unfold getMastra.
  destruct (mastraPromise st) as [p|] eqn:E; cbn [snd].
  - split.
    + intros p0 Hp. cbn in Hp. injection Hp as <-. exact (Hc p E).
    + split; cbn [calls mastraPromise webSearchAgentPromise];
        [exact Hm | exact Ha].
  - split.
    + intros p Hp. cbn in Hp. injection Hp as <-. reflexivity.
    + split; cbn [calls mastraPromise webSearchAgentPromise];
        rewrite invocations_app, initializeMastra_events.
      * rewrite Hm. reflexivity.
      * rewrite Ha. cbn. lia.
Qed.

Lemma createWebSearchAgent_calls caller :
  snd (createWebSearchAgent w caller)
    = [EvInvoke caller FnCreateWebSearchAgent; EvGetTools].
Proof. unfold createWebSearchAgent. destruct (mcp_getTools w); reflexivity. Qed.

Lemma getWebSearchAgent_invariant st :
  coherent w st -> counted st ->
  coherent w (snd (getWebSearchAgent w st))
  /\ counted (snd (getWebSearchAgent w st)).
Proof.
  intros Hc [Hm Ha]. unfold getWebSearchAgent.
  destruct (webSearchAgentPromise st) as [p|] eqn:E; cbn [snd].
  - split; [exact Hc|].
    split; cbn [calls mastraPromise webSearchAgentPromise];
      [exact Hm | exact Ha].
  - split; [exact Hc|].
    split; cbn [calls mastraPromise webSearchAgentPromise];
      rewrite invocations_app, createWebSearchAgent_calls.
    + rewrite Hm. cbn. lia.
    + rewrite Ha. reflexivity.
Qed.

Lemma call_createWebSearchAgent_invariant st :
  coherent w st -> counted st ->
  coherent w (snd (call_createWebSearchAgent w st))
  /\ counted (snd (call_createWebSearchAgent w st)).
Proof.
  intros Hc [Hm Ha]. unfold call_createWebSearchAgent. cbn [snd].
  split; [exact Hc|].
  split; cbn [calls mastraPromise webSearchAgentPromise];
    rewrite invocations_app, createWebSearchAgent_calls; cbn; lia.
Qed.

Lemma add_calls_invariant st evs :
  Forall (fun ev => is_generate ev = true) evs ->
  coherent w st -> counted st ->
  coherent w (add_calls st evs) /\ counted (add_calls st evs).
Proof.
  intros Hevs Hc [Hm Ha]. split; [exact Hc|].
  split; cbn [add_calls calls mastraPromise webSearchAgentPromise];
    rewrite invocations_app, (invocations_generate _ _ evs Hevs); lia.
Qed.

Lemma perform_invariant st c :
  coherent w st -> counted st ->
  coherent w (perform w st c) /\ counted (perform w st c).
Proof.
  intros Hc Hn. destruct c as [| | |req]; cbn [perform].
  - now apply call_createWebSearchAgent_invariant.
  - now apply getMastra_invariant.
  - now apply getWebSearchAgent_invariant.
  - destruct (runWebSearchAgent_state w req st)
      as [-> | [-> | (p & mastra & wf & td & input & ps & Hget & Hp & Hwf & ->)]].
    + auto.
    + now apply getMastra_invariant.
    + destruct (getMastra_invariant st Hc Hn) as [Hc' Hn'].
      apply add_calls_invariant; [|exact Hc' | exact Hn'].
      destruct (getMastra_coherent w st Hc) as (p' & st' & Hget' & Hinit & _).
      rewrite Hget' in Hget. cbn in Hget. injection Hget as ->.
      destruct (coherent_workflow p mastra wf Hinit Hp Hwf) as [tools ->].
      apply run_webSearchWorkflow_generates.
Qed.

Lemma perform_all_invariant cs : forall st,
  coherent w st -> counted st ->
  coherent w (perform_all w cs st) /\ counted (perform_all w cs st).
Proof.
  induction cs as [|c cs IH]; intros st Hc Hn; cbn; [auto|].
  destruct (perform_invariant st c Hc Hn) as [Hc' Hn']. now apply IH.
Qed.

Lemma counted_initial : counted initial_state.
Proof. split; reflexivity. Qed.

Lemma reachable_initial : reachable w initial_state.
Proof. now exists []. Qed.

Lemma reachable_coherent st : reachable w st -> coherent w st.
Proof.
  intros [cs ->].
  apply (perform_all_invariant cs initial_state);
    [apply coherent_initial | apply counted_initial].
Qed.

End CountFacts.




(* ================================================================== *)
(** ** The run entry point *)




(** C2, as stated, fails: for the request with the empty query the result
    does not have [success] equal to [true]. *)
Lemma empty_query_run_not_successful :
  ~ exists result,
      fst (runWebSearchAgent
             (mkWorld None (Return ["brave_web_search"]) (fun _ _ => Fulfilled "ok"))
             (request (JStr "")) initial_state)
        = Return result
      /\ Js.opt_get result "success" = JBool true.
Proof.
  intros (result & Hrun & Hsuccess). cbn in Hrun.
  injection Hrun as <-. discriminate Hsuccess.
Qed.

(** C2, amended. For a request whose query is empty or absent (falsy), the
    entry point does not start the workflow: it returns
    [{ success: false, error: 'No prompt provided' }], leaves the module
    state as it was and raises no exception. *)
Theorem falsy_query_run_refused
    (w : World) (st : ModuleState) (req q : JsValue) :
  request_query req = Return q ->
  Js.truthy q = false ->
  runWebSearchAgent w req st
    = (Return (failure_result (JStr "No prompt provided")), st).
Proof. apply runWebSearchAgent_falsy. Qed.

Lemma falsy_query_run_refused_witness :
  runWebSearchAgent
    (mkWorld None (Return ["brave_web_search"]) (fun _ _ => Fulfilled "ok"))
    (JObj [("query", JObj [])]) initial_state
    = (Return (failure_result (JStr "No prompt provided")), initial_state).
Proof.
  apply (falsy_query_run_refused
           (mkWorld None (Return ["brave_web_search"]) (fun _ _ => Fulfilled "ok"))
           initial_state (JObj [("query", JObj [])]) JUndefined);
    reflexivity.
Defined.



(** C5, as stated, fails: the credential is ['dummy-key'] and the query is
    ["What is the capital of Japan?"], but tool provisioning rejects, and the
    run result is not [{ success: true, ... }]. *)
Lemma unusable_credential_run_fails_without_tools :
  fst (runWebSearchAgent
         (mkWorld (Some "dummy-key") (Throw (JError "spawn npx ENOENT"))
                  (fun _ _ => Fulfilled "ok"))
         (request (JStr "What is the capital of Japan?")) initial_state)
    <> Return (JObj [("success", JBool true);
                     ("result", JObj [("answer", JStr fallback_answer)])]).
Proof. cbn. discriminate. Qed.

(** C5, amended. When the credential is absent, empty or ['dummy-key'], the
    process-results step makes no call to the Agent Facade and answers with
    a fixed string: the canned answer when it has found a query, the default
    response when it has found none.  For the request with the query
    ["What is the capital of Japan?"], provided tool provisioning succeeded,
    the run returns [{ success: true, result: { answer: <canned answer> } }]
    in every reachable state. *)
Theorem unusable_credential_canned_answer (w : World) :
  api_key_invalid w = true ->
  (forall agent context,
      generate_calls (snd (processResultsStep_execute w agent context)) = 0)
  /\ (forall agent context q,
         processResultsStep_resolve context = Return q ->
         fst (processResultsStep_execute w agent context)
           = Return (JObj [("answer",
                            JStr (if Js.truthy q
                                  then fallback_answer
                                  else default_response))]))
  /\ (forall tools st,
         mcp_getTools w = Return tools ->
         reachable w st ->
         fst (runWebSearchAgent w (request (JStr "What is the capital of Japan?")) st)
           = Return (JObj [("success", JBool true);
                           ("result", JObj [("answer", JStr fallback_answer)])])).
Proof.
  intros Hkey. split; [|split].
  - intros agent context.
    destruct (processResultsStep_execute_events w agent context)
      as [-> | (q & Hvalid & _)]; [reflexivity | congruence].
  - intros agent context q Hq.
    rewrite (processResultsStep_execute_eq w agent context q Hq).
    unfold agent_answer. rewrite Hkey. now destruct (Js.truthy q).
  - intros tools st Htools Hr. pose proof (reachable_coherent w st Hr) as Hc.
    rewrite (runWebSearchAgent_ok w tools
               (request (JStr "What is the capital of Japan?"))
               (JStr "What is the capital of Japan?") st Htools Hc)
      by reflexivity.
    unfold agent_answer. now rewrite Hkey.
Qed.

Lemma unusable_credential_canned_answer_witness :
  fst (runWebSearchAgent
         (mkWorld (Some "dummy-key") (Return ["brave_web_search"])
                  (fun _ _ => Fulfilled "ok"))
         (request (JStr "What is the capital of Japan?")) initial_state)
    = Return (JObj [("success", JBool true);
                    ("result", JObj [("answer", JStr fallback_answer)])]).
Proof.
  refine (proj2 (proj2 (unusable_credential_canned_answer
                          (mkWorld (Some "dummy-key") (Return ["brave_web_search"])
                                   (fun _ _ => Fulfilled "ok"))
                          _))
                ["brave_web_search"] initial_state _ _).
  - reflexivity.
  - reflexivity.
  - now exists [].
Defined.

Lemma contains_suffix (pre m : string) : contains (pre ++ m) m.
Proof.
  exists pre, "". f_equal.
  induction m as [|c m IH]; cbn; [reflexivity | now rewrite <- IH].
Qed.

Lemma processResultsStep_execute_with_rejection
    (w : World) (facade : Agent -> list Message -> FacadeOutcome)
    (agent : Agent) (context q e : JsValue) :
  api_key_invalid w = false ->
  processResultsStep_resolve context = Return q ->
  Js.truthy q = true ->
  facade agent [mkMessage "user" q] = FacadeThrows e ->
  fst (processResultsStep_execute_with w facade agent context)
    = match Js.get e "message" with
      | Return message =>
          Return (answer_output (error_answer_prefix ++ Js.to_string message))
      | Throw t => Throw t
      end.
Proof.
  intros Hkey Hq Ht Hf. unfold processResultsStep_execute_with.
  rewrite Hq. cbn. rewrite Ht, Hkey. cbn.
  unfold generate_with. rewrite Hf. cbn.
  unfold processResultsStep_catch. now destruct (Js.get e "message").
Qed.

(** C6 does not hold of the code: the [catch] block of the process-results
    step reads [error.message] without a guard.  When the Agent Facade call
    rejects with [null] or [undefined], that read throws a [TypeError] inside
    the handler, and the step, which was to turn every error of the call into
    an answer, throws instead. *)
Theorem nullish_agent_rejection_escapes
    (w : World) (facade : Agent -> list Message -> FacadeOutcome)
    (agent : Agent) (context q e : JsValue) :
  api_key_invalid w = false ->
  processResultsStep_resolve context = Return q ->
  Js.truthy q = true ->
  facade agent [mkMessage "user" q] = FacadeThrows e ->
  Js.is_nullish e = true ->
  exists m,
    fst (processResultsStep_execute_with w facade agent context)
      = Throw (JError m).
Proof.
  intros Hkey Hq Ht Hf He.
  rewrite (processResultsStep_execute_with_rejection w facade agent context q e
             Hkey Hq Ht Hf).
  destruct e; try discriminate He; eexists; reflexivity.
Qed.

Lemma nullish_agent_rejection_escapes_witness :
  exists m,
    fst (processResultsStep_execute_with
           (mkWorld (Some "sk-live") (Return ["brave_web_search"])
                    (fun _ _ => Fulfilled "ok"))
           (fun _ _ => FacadeThrows JNull)
           (webSearchAgent_of ["brave_web_search"])
           (Engine.execution_context
              (mkContextStore (query_output (JStr "q")) []
                              [(search_step_id, query_output (JStr "q"))])))
      = Throw (JError m).
Proof.
  apply (nullish_agent_rejection_escapes
           (mkWorld (Some "sk-live") (Return ["brave_web_search"])
                    (fun _ _ => Fulfilled "ok"))
           (fun _ _ => FacadeThrows JNull)
           (webSearchAgent_of ["brave_web_search"])
           (Engine.execution_context
              (mkContextStore (query_output (JStr "q")) []
                              [(search_step_id, query_output (JStr "q"))]))
           (JStr "q") JNull); reflexivity.
Defined.

(** C7, as stated, fails: tool provisioning rejects with the plain object
    [{ message: "boom" }], the exception escapes the [try] block, and the
    result's [error] is not the exception's message. *)
Lemma non_Error_exception_message_not_reported :
  let w := mkWorld (Some "sk-live") (Throw (JObj [("message", JStr "boom")]))
                   (fun _ _ => Fulfilled "ok") in
  fst (runWebSearchAgent_try w (JStr "q") initial_state)
    = Throw (JObj [("message", JStr "boom")])
  /\ fst (runWebSearchAgent w (request (JStr "q")) initial_state)
     <> Return (failure_result (JStr "boom")).
Proof. split; [reflexivity | discriminate]. Qed.

(** C7, amended. For a request whose [req.query] is an object with a truthy
    query, every exception that escapes the [try] block of
    [runWebSearchAgent] is caught: the result is
    [{ success: false, error }], where [error] is the exception's message
    when the exception is an instance of [Error] and the fixed string
    ['Failed to run web search agent'] otherwise.  For every request whose
    [req.query] is an object the entry point returns and does not throw. *)
Theorem escaping_exception_reported (w : World) (st : ModuleState) (req q : JsValue) :
  request_query req = Return q ->
  (forall e st',
      Js.truthy q = true ->
      runWebSearchAgent_try w q st = (Throw e, st') ->
      runWebSearchAgent w req st
        = (Return (failure_result
                     (if Js.instanceof_Error e
                      then Js.opt_get e "message"
                      else JStr "Failed to run web search agent")),
           st'))
  /\ (forall m st',
         Js.truthy q = true ->
         runWebSearchAgent_try w q st = (Throw (JError m), st') ->
         runWebSearchAgent w req st
           = (Return (failure_result (JStr m)), st'))
  /\ exists result, fst (runWebSearchAgent w req st) = Return result.
Proof.
  intros Hreq. split; [|split].
  - intros e st' Ht Htry.
    rewrite (runWebSearchAgent_truthy w req q st Hreq Ht).
    unfold M.try_catch. rewrite Htry. reflexivity.
  - intros m st' Ht Htry.
    rewrite (runWebSearchAgent_truthy w req q st Hreq Ht).
    unfold M.try_catch. rewrite Htry. reflexivity.
  - destruct (Js.truthy q) eqn:Ht.
    + rewrite (runWebSearchAgent_truthy w req q st Hreq Ht).
      unfold M.try_catch.
      destruct (runWebSearchAgent_try w q st) as [[r|e] st'];
        eexists; reflexivity.
    + rewrite (runWebSearchAgent_falsy w req q st Hreq Ht).
      eexists; reflexivity.
Qed.

Lemma escaping_exception_reported_witness :
  fst (runWebSearchAgent
         (mkWorld (Some "sk-live") (Throw (JError "spawn npx ENOENT"))
                  (fun _ _ => Fulfilled "ok"))
         (request (JStr "q")) initial_state)
    = Return (failure_result (JStr "spawn npx ENOENT")).
Proof.
  refine (f_equal fst
            (proj1 (proj2 (escaping_exception_reported
                             (mkWorld (Some "sk-live")
                                      (Throw (JError "spawn npx ENOENT"))
                                      (fun _ _ => Fulfilled "ok"))
                             initial_state (request (JStr "q")) (JStr "q") _))
                   "spawn npx ENOENT" _ _ _)).
  - reflexivity.
  - reflexivity.
  - reflexivity.
Defined.

(* ================================================================== *)
(** ** Further properties of the steps *)

Lemma get_non_nullish (v : JsValue) (k : string) :
  Js.is_nullish v = false -> Js.get v k = Return (Js.opt_get v k).
Proof. destruct v; cbn; (discriminate || reflexivity). Qed.

Lemma get_nullish (v : JsValue) (k : string) :
  Js.is_nullish v = true -> exists m, Js.get v k = Throw (JError m).
Proof. destruct v; cbn; try discriminate; intros _; eexists; reflexivity. Qed.

Lemma resolve_non_nullish (context : JsValue) :
  Js.is_nullish context = false ->
  exists q p,
    searchStep_resolve context = Return q
    /\ processResultsStep_resolve context = Return (Js.or p q).
Proof.
  intros H.
  unfold processResultsStep_resolve, previous_step_query, searchStep_resolve,
    trigger_query.
  rewrite (get_non_nullish context "context" H).
  eexists. eexists. split; reflexivity.
Qed.

Lemma agent_answer_not_default (w : World) (agent : Agent) (q : JsValue) :
  agent_answer w agent q <> default_response.
Proof.
  unfold agent_answer.
  destruct (api_key_invalid w); [discriminate|].
  destruct (Agent_generate w agent [mkMessage "user" q]); discriminate.
Qed.

Lemma processResultsStep_execute_calls (w : World) (agent : Agent)
    (context q : JsValue) :
  processResultsStep_resolve context = Return q ->
  snd (processResultsStep_execute w agent context)
    = if Js.truthy q && negb (api_key_invalid w)
      then [EvGenerate agent [mkMessage "user" q]]
      else [].
Proof.
  intros H. unfold processResultsStep_execute, processResultsStep_execute_with.
  rewrite H. cbn.
  destruct (Js.truthy q); cbn; [|reflexivity].
  destruct (api_key_invalid w); cbn; [reflexivity|].
  unfold generate_with, world_facade.
  destruct (Agent_generate w agent [mkMessage "user" q]); reflexivity.
Qed.

(** X1. On every context that is an object (or any other non-nullish
    value), the search step returns, makes no call, and its output carries a
    truthy query: it never hands an empty or missing query to the next
    step. *)
Theorem searchStep_output_query_truthy (context : JsValue) :
  Js.is_nullish context = false ->
  exists v,
    searchStep_execute context = (Return (query_output v), [])
    /\ Js.truthy v = true.
Proof.
  intros H. destruct (resolve_non_nullish context H) as (q & _ & Hq & _).
  rewrite (searchStep_execute_eq context q Hq).
  exists (if Js.truthy q then q else JStr default_search_query).
  split; [reflexivity|].
  destruct (Js.truthy q) eqn:E; [exact E | reflexivity].
Qed.

Lemma searchStep_output_query_truthy_witness :
  exists v,
    searchStep_execute (JObj [("context", JObj [("triggerData", JNull)])])
      = (Return (query_output v), [])
    /\ Js.truthy v = true.
Proof.
  apply (searchStep_output_query_truthy
           (JObj [("context", JObj [("triggerData", JNull)])])).
  reflexivity.
Defined.

(** X2. The first property access of both steps, [context.context], is not
    guarded: on an [undefined] or [null] context both steps throw the same
    [TypeError] and make no call. *)
Theorem steps_throw_on_nullish_context
    (w : World) (agent : Agent) (context : JsValue) :
  Js.is_nullish context = true ->
  exists m,
    searchStep_execute context = (Throw (JError m), [])
    /\ processResultsStep_execute w agent context = (Throw (JError m), []).
Proof.
  intros H. destruct (get_nullish context "context" H) as [m Hm].
  exists m.
  unfold searchStep_execute, processResultsStep_execute,
    processResultsStep_execute_with, processResultsStep_resolve, previous_step_query, searchStep_resolve,
    trigger_query.
  rewrite Hm. split; reflexivity.
Qed.

Lemma steps_throw_on_nullish_context_witness :
  exists m,
    searchStep_execute JUndefined = (Throw (JError m), [])
    /\ processResultsStep_execute
         (mkWorld (Some "sk-live") (Return []) (fun _ _ => Fulfilled "ok"))
         (webSearchAgent_of []) JUndefined
       = (Throw (JError m), []).
Proof.
  apply (steps_throw_on_nullish_context
           (mkWorld (Some "sk-live") (Return []) (fun _ _ => Fulfilled "ok"))
           (webSearchAgent_of []) JUndefined).
  reflexivity.
Defined.

(** X3. On every non-nullish context the process-results step is
    fail-soft: whatever the credential and whatever the Agent Facade does,
    it returns [{ answer }] with a non-empty string and calls the facade at
    most once. *)
Theorem processResultsStep_fail_soft
    (w : World) (agent : Agent) (context : JsValue) :
  Js.is_nullish context = false ->
  exists answer,
    fst (processResultsStep_execute w agent context)
      = Return (answer_output answer)
    /\ answer <> ""
    /\ generate_calls (snd (processResultsStep_execute w agent context)) <= 1.
Proof.
  intros H. destruct (resolve_non_nullish context H) as (t & p & _ & Hq).
  rewrite (processResultsStep_execute_eq w agent context _ Hq).
  rewrite (processResultsStep_execute_calls w agent context _ Hq).
  eexists. split; [reflexivity|]. split.
  - destruct (Js.truthy (Js.or p t));
      [apply agent_answer_nonempty | discriminate].
  - destruct (Js.truthy (Js.or p t) && negb (api_key_invalid w)); cbn; lia.
Qed.

Lemma processResultsStep_fail_soft_witness :
  exists answer,
    fst (processResultsStep_execute
           (mkWorld (Some "sk-live") (Return []) (fun _ _ => Rejected "overloaded"))
           (webSearchAgent_of [])
           (JObj [("context", JObj [("triggerData", query_output (JStr "q"))])]))
      = Return (answer_output answer)
    /\ answer <> ""
    /\ generate_calls
         (snd (processResultsStep_execute
                 (mkWorld (Some "sk-live") (Return [])
                          (fun _ _ => Rejected "overloaded"))
                 (webSearchAgent_of [])
                 (JObj [("context",
                         JObj [("triggerData", query_output (JStr "q"))])])))
       <= 1.
Proof.
  apply (processResultsStep_fail_soft
           (mkWorld (Some "sk-live") (Return []) (fun _ _ => Rejected "overloaded"))
           (webSearchAgent_of [])
           (JObj [("context", JObj [("triggerData", query_output (JStr "q"))])])).
  reflexivity.
Defined.

(** X4. The process-results step calls the Agent Facade exactly when it has
    found a truthy query and the credential is usable; the call is then its
    only call and carries a single message, of role ['user'], whose content
    is the resolved query itself.  Otherwise it makes no call at all. *)
Theorem processResultsStep_facade_call
    (w : World) (agent : Agent) (context q : JsValue) :
  processResultsStep_resolve context = Return q ->
  (Js.truthy q = true ->
   api_key_invalid w = false ->
   snd (processResultsStep_execute w agent context)
     = [EvGenerate agent [mkMessage "user" q]])
  /\ (Js.truthy q = false \/ api_key_invalid w = true ->
      snd (processResultsStep_execute w agent context) = []).
Proof.
  intros H. rewrite (processResultsStep_execute_calls w agent context q H).
  split.
  - intros -> ->. reflexivity.
  - intros [-> | ->]; [reflexivity|]. now rewrite Bool.andb_false_r.
Qed.

Lemma processResultsStep_facade_call_witness :
  snd (processResultsStep_execute
         (mkWorld (Some "sk-live") (Return []) (fun _ _ => Fulfilled "ok"))
         (webSearchAgent_of [])
         (Engine.execution_context
            (mkContextStore (query_output (JStr "t")) []
                            [(search_step_id, query_output (JStr "p"))])))
    = [EvGenerate (webSearchAgent_of []) [mkMessage "user" (JStr "p")]].
Proof.
  refine (proj1 (processResultsStep_facade_call
                   (mkWorld (Some "sk-live") (Return []) (fun _ _ => Fulfilled "ok"))
                   (webSearchAgent_of [])
                   (Engine.execution_context
                      (mkContextStore (query_output (JStr "t")) []
                                      [(search_step_id, query_output (JStr "p"))]))
                   (JStr "p") _) _ _); reflexivity.
Defined.

(** X5. The answer ["No query provided, using default response"] marks a
    missing query and nothing else: the process-results step returns it
    exactly when the query it resolved is falsy. *)
Theorem default_response_iff_no_query
    (w : World) (agent : Agent) (context q : JsValue) :
  processResultsStep_resolve context = Return q ->
  (fst (processResultsStep_execute w agent context)
     = Return (answer_output default_response)
   <-> Js.truthy q = false).
Proof.
  intros H. rewrite (processResultsStep_execute_eq w agent context q H).
  destruct (Js.truthy q); split; intros E; try reflexivity; try discriminate E.
  exfalso. apply (agent_answer_not_default w agent q).
  now injection E.
Qed.

Lemma default_response_iff_no_query_witness :
  fst (processResultsStep_execute
         (mkWorld (Some "sk-live") (Return []) (fun _ _ => Fulfilled "ok"))
         (webSearchAgent_of [])
         (JObj [("context", JObj [("triggerData", query_output (JStr ""))])]))
    = Return (answer_output default_response).
Proof.
  apply (proj2 (default_response_iff_no_query
                  (mkWorld (Some "sk-live") (Return []) (fun _ _ => Fulfilled "ok"))
                  (webSearchAgent_of [])
                  (JObj [("context", JObj [("triggerData", query_output (JStr ""))])])
                  (JStr "") eq_refl)).
  reflexivity.
Defined.

Lemma string_length_append (a b : string) :
  String.length (a ++ b) = String.length a + String.length b.
Proof. induction a as [|c a IH]; cbn; [reflexivity | now rewrite IH]. Qed.

Lemma json_escape_length (c : ascii) : 1 <= String.length (Js.json_escape c).
Proof.
  unfold Js.json_escape.
  repeat match goal with
         | |- context [if ?b then _ else _] => destruct b
         end; cbn; lia.
Qed.

Lemma json_escape_all_length (s : string) :
  String.length s <= String.length (Js.json_escape_all s).
Proof.
  induction s as [|c s IH]; cbn; [lia|].
  rewrite string_length_append. pose proof (json_escape_length c). lia.
Qed.

Lemma JSON_stringify_length (s : string) :
  String.length s + 2 <= String.length (Js.JSON_stringify s).
Proof.
  unfold Js.JSON_stringify. rewrite !string_length_append. cbn.
  pose proof (json_escape_all_length s). lia.
Qed.

Lemma json_escape_plain (c : ascii) :
  needs_escape c = false -> Js.json_escape c = String c "".
Proof.
  unfold needs_escape, Js.json_escape.
  intros H. apply Bool.orb_false_iff in H. destruct H as [H H92].
  apply Bool.orb_false_iff in H. destruct H as [H32 H34].
  rewrite H34, H92, H32. apply Nat.ltb_ge in H32.
  repeat match goal with
         | |- context [Nat.eqb ?a ?b] =>
             destruct (Nat.eqb_spec a b); [lia|]
         end.
  reflexivity.
Qed.

Lemma json_escape_all_plain (s : string) :
  no_escapes s = true -> Js.json_escape_all s = s.
Proof.
  induction s as [|c s IH]; cbn; [reflexivity|].
  intros H. apply Bool.andb_true_iff in H. destruct H as [Hc Hs].
  apply Bool.negb_true_iff in Hc.
  now rewrite (json_escape_plain c Hc), (IH Hs).
Qed.

(** X6. When the agent answers, the step's answer is
    [JSON.stringify(result.text)], the JSON string literal of the agent's
    text, not the text: it is at least two characters longer than the text
    and never equal to it, and for a text without control characters, double
    quotes and backslashes it is the text between two double quotes. *)
Theorem fulfilled_answer_is_quoted
    (w : World) (agent : Agent) (context q : JsValue) (text : string) :
  api_key_invalid w = false ->
  processResultsStep_resolve context = Return q ->
  Js.truthy q = true ->
  Agent_generate w agent [mkMessage "user" q] = Fulfilled text ->
  fst (processResultsStep_execute w agent context)
    = Return (JObj [("answer", JStr (Js.JSON_stringify text))])
  /\ String.length text + 2 <= String.length (Js.JSON_stringify text)
  /\ Js.JSON_stringify text <> text
  /\ (no_escapes text = true ->
      Js.JSON_stringify text = Js.dquote ++ text ++ Js.dquote).
Proof.
  intros Hkey Hq Ht Hgen.
  rewrite (processResultsStep_execute_eq w agent context q Hq), Ht.
  unfold agent_answer. rewrite Hkey, Hgen.
  split; [reflexivity|]. split; [apply JSON_stringify_length|]. split.
  - intros E. pose proof (JSON_stringify_length text) as L.
    rewrite E in L. lia.
  - intros Hplain. unfold Js.JSON_stringify.
    now rewrite (json_escape_all_plain text Hplain).
Qed.

Lemma fulfilled_answer_is_quoted_witness :
  fst (processResultsStep_execute
         (mkWorld (Some "sk-live") (Return []) (fun _ _ => Fulfilled "Tokyo"))
         (webSearchAgent_of [])
         (JObj [("context", JObj [("triggerData", query_output (JStr "q"))])]))
    = Return (JObj [("answer", JStr (Js.JSON_stringify "Tokyo"))])
  /\ Js.JSON_stringify "Tokyo" = Js.dquote ++ "Tokyo" ++ Js.dquote.
Proof.
  refine ((fun H => conj (proj1 H) (proj2 (proj2 (proj2 H)) eq_refl))
            (fulfilled_answer_is_quoted
               (mkWorld (Some "sk-live") (Return []) (fun _ _ => Fulfilled "Tokyo"))
               (webSearchAgent_of [])
               (JObj [("context", JObj [("triggerData", query_output (JStr "q"))])])
               (JStr "q") "Tokyo" _ _ _ _)); reflexivity.
Defined.

(** X7. Once the search step's output carries a truthy query, nothing else
    in the context matters to the process-results step: two contexts with
    that same previous query give the same result and the same facade call,
    whatever their trigger data. *)
Theorem processResultsStep_ignores_trigger_after_search
    (w : World) (agent : Agent) (c1 c2 p : JsValue) :
  previous_step_query c1 = Return p ->
  previous_step_query c2 = Return p ->
  Js.truthy p = true ->
  processResultsStep_execute w agent c1 = processResultsStep_execute w agent c2.
Proof.
  intros H1 H2 Hp.
  assert (R : forall c, previous_step_query c = Return p ->
                        processResultsStep_resolve c = Return p).
  { intros c Hc. unfold processResultsStep_resolve. rewrite Hc.
    unfold previous_step_query, trigger_query in *.
    destruct (Js.get c "context"); [|discriminate Hc].
    now rewrite truthy_or_left. }
  unfold processResultsStep_execute, processResultsStep_execute_with.
  now rewrite (R c1 H1), (R c2 H2).
Qed.

Lemma processResultsStep_ignores_trigger_after_search_witness :
  let w := mkWorld (Some "sk-live") (Return []) (fun _ _ => Fulfilled "ok") in
  processResultsStep_execute w (webSearchAgent_of [])
    (Engine.execution_context
       (mkContextStore (query_output (JStr "one")) []
                       [(search_step_id, query_output (JStr "p"))]))
  = processResultsStep_execute w (webSearchAgent_of [])
      (Engine.execution_context
         (mkContextStore JUndefined []
                         [(search_step_id, query_output (JStr "p"))])).
Proof.
  intros w.
  apply (processResultsStep_ignores_trigger_after_search w (webSearchAgent_of [])
           (Engine.execution_context
              (mkContextStore (query_output (JStr "one")) []
                              [(search_step_id, query_output (JStr "p"))]))
           (Engine.execution_context
              (mkContextStore JUndefined []
                              [(search_step_id, query_output (JStr "p"))]))
           (JStr "p")); reflexivity.
Defined.

(* ================================================================== *)
(** ** Further properties of a run *)

Lemma run_webSearchWorkflow_calls (w : World) (agent : Agent) (td : JsValue)
    (ov : list (string * JsValue)) :
  snd (Engine.run (webSearchWorkflow w agent) td ov)
    = if negb (api_key_invalid w)
      then [EvGenerate agent [mkMessage "user" (handed_on td)]]
      else [].
Proof.
  unfold Engine.run. cbn [webSearchWorkflow committed steps Engine.run_steps].
  cbn [searchStep execute id]. rewrite searchStep_in_run.
  unfold Eff.bind at 2. unfold Eff.ret at 1.
  cbn [processResultsStep execute id Engine.record_output
       triggerData stepOverrides stepOutputs app].
  assert (Hq : processResultsStep_resolve
                 (Engine.execution_context
                    (mkContextStore td ov
                       [(search_step_id, query_output (handed_on td))]))
               = Return (handed_on td)).
  { unfold processResultsStep_resolve.
    rewrite previous_step_query_search, trigger_query_execution_context.
    cbn. now rewrite truthy_or_left by apply handed_on_truthy. }
  pose proof (processResultsStep_execute_calls w agent _ _ Hq) as H.
  rewrite handed_on_truthy in H. cbn [andb] in H.
  destruct (processResultsStep_execute w agent _) as [[out|e] evs];
    cbn in *; rewrite ?app_nil_r; exact H.
Qed.

Lemma handed_on_query_output (q : JsValue) :
  Js.truthy q = true -> handed_on (query_output q) = q.
Proof. intros H. unfold handed_on. cbn. now rewrite H. Qed.

Section RunShape.

Variable w : World.

Lemma runWebSearchAgent_provisioned tools req q st :
  mcp_getTools w = Return tools ->
  coherent w st ->
  request_query req = Return q ->
  Js.truthy q = true ->
  runWebSearchAgent w req st
    = (Return (success_result
                 (answer_output (agent_answer w (webSearchAgent_of tools) q))),
       add_calls (snd (getMastra w st))
                 (run_calls w (webSearchAgent_of tools) q)).
Proof.
  intros Htools Hc Hreq Ht.
  rewrite (runWebSearchAgent_truthy w req q st Hreq Ht).
  destruct (getMastra_coherent w st Hc) as (p & st' & Hget & Hp & _).
  rewrite (initializeMastra_ok w tools Htools) in Hp.
  unfold M.try_catch, runWebSearchAgent_try, M.bind. rewrite Hget.
  unfold M.await, M.lift. rewrite Hp.
  cbn [workflows Mastra_getWorkflow snd].
  change (workflow_name =? workflow_name) with true. cbn iota.
  unfold M.lift_eff, Engine.Workflow_start.
  rewrite run_webSearchWorkflow, run_webSearchWorkflow_calls.
  rewrite (handed_on_query_output q Ht). reflexivity.
Qed.

Lemma runWebSearchAgent_unprovisioned e req q st :
  mcp_getTools w = Throw e ->
  coherent w st ->
  request_query req = Return q ->
  Js.truthy q = true ->
  runWebSearchAgent w req st
    = (Return (failure_result (reported e)), snd (getMastra w st)).
Proof.
  intros Htools Hc Hreq Ht.
  rewrite (runWebSearchAgent_truthy w req q st Hreq Ht).
  destruct (getMastra_coherent w st Hc) as (p & st' & Hget & Hp & _).
  rewrite (initializeMastra_failed w e Htools) in Hp.
  unfold M.try_catch, runWebSearchAgent_try, M.bind. rewrite Hget.
  unfold M.await, M.lift. rewrite Hp. reflexivity.
Qed.

End RunShape.

Lemma facade_calls_app (l1 l2 : list Event) :
  facade_calls (l1 ++ l2)%list = (facade_calls l1 ++ facade_calls l2)%list.
Proof. apply filter_app. Qed.

Lemma getMastra_facade_calls (w : World) (st : ModuleState) :
  facade_calls (calls (snd (getMastra w st))) = facade_calls (calls st).
Proof.
  unfold getMastra. destruct (mastraPromise st); cbn [snd calls]; [reflexivity|].
  rewrite facade_calls_app, initializeMastra_events. cbn. apply app_nil_r.
Qed.


(** X9. The destructuring [const { query } = req.query] stands outside the
    [try] block: for a request that is nullish or whose [query] property is
    nullish, [runWebSearchAgent] throws a [TypeError] to its caller, before
    anything is initialised or recorded. *)
Theorem malformed_request_throws (w : World) (st : ModuleState) (req : JsValue) :
  Js.is_nullish (Js.opt_get req "query") = true ->
  exists m, runWebSearchAgent w req st = (Throw (JError m), st).
Proof.
  intros H. unfold runWebSearchAgent, M.bind, M.lift, request_query.
  destruct (Js.is_nullish req) eqn:Hreq.
  - destruct (get_nullish req "query" Hreq) as [m ->]. now exists m.
  - rewrite (get_non_nullish req "query" Hreq), H. eexists. reflexivity.
Qed.

Lemma malformed_request_throws_witness :
  exists m,
    runWebSearchAgent
      (mkWorld (Some "sk-live") (Return []) (fun _ _ => Fulfilled "ok"))
      (JObj [("body", JObj [("query", JStr "q")])]) initial_state
    = (Throw (JError m), initial_state).
Proof.
  apply (malformed_request_throws
           (mkWorld (Some "sk-live") (Return []) (fun _ _ => Fulfilled "ok"))
           initial_state (JObj [("body", JObj [("query", JStr "q")])])).
  reflexivity.
Defined.

(** X10. Caching is transparent: what [runWebSearchAgent] returns for a
    request does not depend on the calls made before it; in any two states
    the process can reach the result is the same. *)
Theorem run_result_independent_of_history
    (w : World) (st1 st2 : ModuleState) (req : JsValue) :
  reachable w st1 ->
  reachable w st2 ->
  fst (runWebSearchAgent w req st1) = fst (runWebSearchAgent w req st2).
Proof.
  intros H1 H2.
  pose proof (reachable_coherent w st1 H1) as C1.
  pose proof (reachable_coherent w st2 H2) as C2.
  destruct (request_query req) as [q|e] eqn:Hreq.
  - destruct (Js.truthy q) eqn:Ht.
    + destruct (mcp_getTools w) as [tools|e] eqn:Htools.
      * now rewrite (runWebSearchAgent_provisioned w tools req q st1),
          (runWebSearchAgent_provisioned w tools req q st2).
      * now rewrite (runWebSearchAgent_unprovisioned w e req q st1),
          (runWebSearchAgent_unprovisioned w e req q st2).
    + now rewrite (runWebSearchAgent_falsy w req q st1),
        (runWebSearchAgent_falsy w req q st2).
  - unfold runWebSearchAgent, M.bind, M.lift. now rewrite Hreq.
Qed.

Lemma run_result_independent_of_history_witness :
  let w := mkWorld (Some "sk-live") (Return []) (fun _ _ => Fulfilled "ok") in
  fst (runWebSearchAgent w (request (JStr "q")) initial_state)
  = fst (runWebSearchAgent w (request (JStr "q"))
           (perform_all w [CallGetWebSearchAgent;
                           CallRunWebSearchAgent (request (JStr "other"))]
                        initial_state)).
Proof.
  intros w.
  apply (run_result_independent_of_history w initial_state
           (perform_all w [CallGetWebSearchAgent;
                           CallRunWebSearchAgent (request (JStr "other"))]
                        initial_state)
           (request (JStr "q"))).
  - now exists [].
  - now exists [CallGetWebSearchAgent;
                CallRunWebSearchAgent (request (JStr "other"))].
Defined.

(** X11. A failed initialisation is reported by every run and never
    retried into a facade call: when tool provisioning rejects with [e],
    each run with a truthy query, in every reachable state, returns
    [{ success: false, error }] with the message of [e] (the fixed string
    if [e] is not an [Error]), and calls the Agent Facade not at all. *)
Theorem failed_provisioning_reported
    (w : World) (e : JsValue) (st : ModuleState) (req q : JsValue) :
  mcp_getTools w = Throw e ->
  reachable w st ->
  request_query req = Return q ->
  Js.truthy q = true ->
  fst (runWebSearchAgent w req st)
    = Return (failure_result
                (if Js.instanceof_Error e
                 then Js.opt_get e "message"
                 else JStr "Failed to run web search agent"))
  /\ facade_calls (calls (snd (runWebSearchAgent w req st)))
     = facade_calls (calls st).
Proof.
  intros Htools Hr Hreq Ht.
  rewrite (runWebSearchAgent_unprovisioned w e req q st Htools
             (reachable_coherent w st Hr) Hreq Ht).
  split; [reflexivity | apply getMastra_facade_calls].
Qed.

Lemma failed_provisioning_reported_witness :
  let w := mkWorld (Some "sk-live") (Throw (JError "spawn npx ENOENT"))
                   (fun _ _ => Fulfilled "ok") in
  let st := perform_all w [CallRunWebSearchAgent (request (JStr "first"))]
                        initial_state in
  fst (runWebSearchAgent w (request (JStr "second")) st)
    = Return (failure_result (JStr "spawn npx ENOENT"))
  /\ facade_calls (calls (snd (runWebSearchAgent w (request (JStr "second")) st)))
     = facade_calls (calls st).
Proof.
  intros w st.
  apply (failed_provisioning_reported w (JError "spawn npx ENOENT") st
           (request (JStr "second")) (JStr "second")).
  - reflexivity.
  - now exists [CallRunWebSearchAgent (request (JStr "first"))].
  - reflexivity.
  - reflexivity.
Defined.



(** X13. The query reaches the agent unchanged.  With tools provisioned, a
    run with a truthy query adds to the calls of the Agent Facade exactly
    one call when the credential is usable, made on the agent of the
    workflow with the single message [{ role: 'user', content: query }], and
    none when the credential is unusable. *)
Theorem query_reaches_agent_unchanged
    (w : World) (tools : Tools) (st : ModuleState) (req q : JsValue) :
  mcp_getTools w = Return tools ->
  reachable w st ->
  request_query req = Return q ->
  Js.truthy q = true ->
  facade_calls (calls (snd (runWebSearchAgent w req st)))
    = (facade_calls (calls st)
         ++ if api_key_invalid w
            then []
            else [EvGenerate (webSearchAgent_of tools) [mkMessage "user" q]])%list.
Proof.
  intros Htools Hr Hreq Ht.
  rewrite (runWebSearchAgent_provisioned w tools req q st Htools
             (reachable_coherent w st Hr) Hreq Ht).
  cbn [snd add_calls calls].
  rewrite facade_calls_app, getMastra_facade_calls. f_equal.
  unfold run_calls. destruct (api_key_invalid w); reflexivity.
Qed.

Lemma query_reaches_agent_unchanged_witness :
  let w := mkWorld (Some "sk-live") (Return ["brave_web_search"])
                   (fun _ _ => Fulfilled "ok") in
  facade_calls
    (calls (snd (runWebSearchAgent w (request (JStr "capital of Japan"))
                   initial_state)))
    = [EvGenerate (webSearchAgent_of ["brave_web_search"])
                  [mkMessage "user" (JStr "capital of Japan")]].
Proof.
  intros w.
  apply (query_reaches_agent_unchanged w ["brave_web_search"] initial_state
           (request (JStr "capital of Japan")) (JStr "capital of Japan")).
  - reflexivity.
  - now exists [].
  - reflexivity.
  - reflexivity.
Defined.

Lemma runWebSearchAgent_truthy_state (w : World) (req q : JsValue)
    (st : ModuleState) :
  request_query req = Return q ->
  Js.truthy q = true ->
  exists evs,
    snd (runWebSearchAgent w req st) = snd (getMastra w st)
    \/ snd (runWebSearchAgent w req st) = add_calls (snd (getMastra w st)) evs.
Proof.
  intros Hreq Ht. rewrite (runWebSearchAgent_truthy w req q st Hreq Ht).
  unfold M.try_catch, runWebSearchAgent_try, M.bind, M.await, M.lift.
  destruct (getMastra w st) as [[p|e] st1]; cbn [fst snd].
  - destruct (settles p) as [mastra|e]; cbn; [|exists []; now left].
    destruct (Mastra_getWorkflow (workflows mastra) workflow_name)
      as [wf|e]; cbn; [|exists []; now left].
    eexists. right.
    unfold M.lift_eff, M.ret, runWebSearchAgent_catch, add_calls.
    match goal with
    | |- context [fst ?m] => destruct (fst m)
    end; reflexivity.
  - exists []. now left.
Qed.

(** X14. The entry point never touches the cache of [getWebSearchAgent]
    and never replaces a cached Mastra promise; a run with a truthy query
    leaves a Mastra promise cached, the one its call of [getMastra] finds or
    creates, whether the run succeeds or not. *)
Theorem run_caches_mastra_only
    (w : World) (st : ModuleState) (req : JsValue) :
  webSearchAgentPromise (snd (runWebSearchAgent w req st))
    = webSearchAgentPromise st
  /\ (forall p,
         mastraPromise st = Some p ->
         mastraPromise (snd (runWebSearchAgent w req st)) = Some p)
  /\ (forall q,
         request_query req = Return q ->
         Js.truthy q = true ->
         exists p,
           mastraPromise (snd (runWebSearchAgent w req st)) = Some p
           /\ mastraPromise (snd (getMastra w st)) = Some p).
Proof.
  split; [|split].
  - destruct (runWebSearchAgent_state w req st)
      as [-> | [-> | (p & mastra & wf & td & input & ps & _ & _ & _ & ->)]];
      [reflexivity | apply getMastra_other | cbn; apply getMastra_other].
  - intros p H.
    exact (proj1 (perform_keeps w st (CallRunWebSearchAgent req)) p H).
  - intros q Hreq Ht.
    destruct (runWebSearchAgent_truthy_state w req q st Hreq Ht) as [evs H].
    destruct (getMastra_caches w st) as (r & p & _ & Hp & _).
    exists p. split; [|exact Hp].
    destruct H as [-> | ->]; exact Hp.
Qed.

Lemma run_caches_mastra_only_witness :
  let w := mkWorld (Some "sk-live") (Throw (JStr "no tools"))
                   (fun _ _ => Fulfilled "ok") in
  exists p,
    mastraPromise (snd (runWebSearchAgent w (request (JStr "q")) initial_state))
      = Some p
    /\ mastraPromise (snd (getMastra w initial_state)) = Some p.
Proof.
  intros w.
  apply (proj2 (proj2 (run_caches_mastra_only w initial_state
                         (request (JStr "q"))))
               (JStr "q")); reflexivity.
Defined.

Section Census.

Variable w : World.
Variable f : Event -> bool.
Hypothesis f_generate : forall agent messages, f (EvGenerate agent messages) = false.









End Census.



(** X16. [initializeMastra] fails only if tool provisioning fails, and then
    with the same exception; otherwise it resolves with an instance in which
    the name [runWebSearchAgent] looks up is registered, for a committed
    workflow of exactly the two steps, search first.  Either way it invokes
    [createWebSearchAgent] once and provisions tools once. *)
Theorem initializeMastra_outcome (w : World) :
  match mcp_getTools w with
  | Return tools =>
      exists mastra wf,
        fst (initializeMastra w) = Return mastra
        /\ Mastra_getWorkflow (workflows mastra) "web-search-workflow" = Return wf
        /\ committed wf = true
        /\ map id (steps wf) = ["search-step"; "process-results-step"]
        /\ map execute (steps wf)
           = [searchStep_execute;
              processResultsStep_execute w (webSearchAgent_of tools)]
  | Throw e => fst (initializeMastra w) = Throw e
  end
  /\ invocations FnInitializeMastra FnCreateWebSearchAgent
       (snd (initializeMastra w)) = 1
  /\ getTools_calls (snd (initializeMastra w)) = 1.
Proof.
  split.
  - destruct (mcp_getTools w) as [tools|e] eqn:Htools.
    + rewrite (initializeMastra_ok w tools Htools).
      eexists. eexists. split; [reflexivity|]. cbn.
      repeat split; reflexivity.
    + apply (initializeMastra_failed w e Htools).
  - rewrite initializeMastra_events. split; reflexivity.
Qed.

Lemma runWebSearchAgent_other (w : World) (req : JsValue) (st : ModuleState) :
  webSearchAgentPromise (snd (runWebSearchAgent w req st))
    = webSearchAgentPromise st.
Proof.
  destruct (runWebSearchAgent_state w req st)
    as [-> | [-> | (p & mastra & wf & td & input & ps & _ & _ & _ & ->)]];
    [reflexivity | apply getMastra_other | cbn; apply getMastra_other].
Qed.

Lemma perform_agent_coherent (w : World) (st : ModuleState) (c : Call) :
  agent_coherent w st -> agent_coherent w (perform w st c).
Proof.
  intros H p. destruct c as [| | |req]; cbn [perform].
  - apply H.
  - rewrite getMastra_other. apply H.
  - unfold getWebSearchAgent.
    destruct (webSearchAgentPromise st) as [p0|] eqn:E; cbn [snd].
    + cbn. intros Hp. injection Hp as <-. exact (H p0 E).
    + cbn. intros Hp. injection Hp as <-. reflexivity.
  - rewrite runWebSearchAgent_other. apply H.
Qed.

Lemma reachable_agent_coherent (w : World) (st : ModuleState) :
  reachable w st -> agent_coherent w st.
Proof.
  intros [cs ->].
  assert (G : forall st0, agent_coherent w st0 ->
                          agent_coherent w (perform_all w cs st0)).
  { induction cs as [|c cs IH]; intros st0 H0; cbn; [exact H0|].
    apply IH. now apply perform_agent_coherent. }
  apply G. intros p Hp. discriminate Hp.
Qed.

Lemma createWebSearchAgent_outcome (w : World) (caller : Fn) :
  fst (createWebSearchAgent w caller)
    = match mcp_getTools w with
      | Return tools => Return (webSearchAgent_of tools)
      | Throw e => Throw e
      end.
Proof. unfold createWebSearchAgent. destruct (mcp_getTools w); reflexivity. Qed.

(** X17. In every reachable state the promises of [getMastra] and
    [getWebSearchAgent] settle as tool provisioning did.  If it rejected
    with [e], both promises reject with [e], for the first caller and for
    every later one: the failure stays cached.  If it resolved, the agent
    promise resolves with the agent named ['web-search-agent'] that holds
    exactly the provisioned tools, and the Mastra promise resolves. *)
Theorem cached_promises_settle_as_provisioning
    (w : World) (st : ModuleState) :
  reachable w st ->
  exists pm pa,
    fst (getMastra w st) = Return pm
    /\ fst (getWebSearchAgent w st) = Return pa
    /\ match mcp_getTools w with
       | Return tools =>
           settles pa = Return (webSearchAgent_of tools)
           /\ agent_name (webSearchAgent_of tools) = "web-search-agent"
           /\ agent_tools (webSearchAgent_of tools) = tools
           /\ exists mastra, settles pm = Return mastra
       | Throw e => settles pm = Throw e /\ settles pa = Throw e
       end.
Proof.
  intros Hr.
  destruct (getMastra_coherent w st (reachable_coherent w st Hr))
    as (pm & st' & Hget & Hpm & _).
  assert (Ha : exists pa, fst (getWebSearchAgent w st) = Return pa
                          /\ settles pa
                             = fst (createWebSearchAgent w FnGetWebSearchAgent)).
  { pose proof (reachable_agent_coherent w st Hr) as Hc.
    unfold getWebSearchAgent.
    destruct (webSearchAgentPromise st) as [p|] eqn:E.
    - eexists. split; [reflexivity | exact (Hc p E)].
    - eexists. split; reflexivity. }
  destruct Ha as (pa & Hgeta & Hpa).
  exists pm, pa. rewrite Hget. split; [reflexivity|]. split; [exact Hgeta|].
  rewrite Hpa, Hpm, createWebSearchAgent_outcome.
  destruct (mcp_getTools w) as [tools|e] eqn:Htools.
  - rewrite (initializeMastra_ok w tools Htools).
    repeat split. eexists. reflexivity.
  - rewrite (initializeMastra_failed w e Htools). split; reflexivity.
Qed.

Lemma cached_promises_settle_as_provisioning_witness :
  let w := mkWorld (Some "sk-live") (Throw (JError "spawn npx ENOENT"))
                   (fun _ _ => Fulfilled "ok") in
  let st := perform_all w [CallGetMastra; CallGetWebSearchAgent] initial_state in
  exists pm pa,
    fst (getMastra w st) = Return pm
    /\ fst (getWebSearchAgent w st) = Return pa
    /\ settles pm = Throw (JError "spawn npx ENOENT")
    /\ settles pa = Throw (JError "spawn npx ENOENT").
Proof.
  intros w st.
  apply (cached_promises_settle_as_provisioning w st).
  now exists [CallGetMastra; CallGetWebSearchAgent].
Defined.

(* ================================================================== *)
(** ** Errors of the Agent Facade call *)

(** X18. Whatever value other than [null] and [undefined] the Agent Facade
    call rejects with, the process-results step catches it and returns
    [{ answer }], the answer being the error explanation followed by
    [String(error.message)]; for an [Error] with message [m] the answer
    contains [m]. *)
Theorem agent_rejection_degraded
    (w : World) (facade : Agent -> list Message -> FacadeOutcome)
    (agent : Agent) (context q e : JsValue) :
  api_key_invalid w = false ->
  processResultsStep_resolve context = Return q ->
  Js.truthy q = true ->
  facade agent [mkMessage "user" q] = FacadeThrows e ->
  Js.is_nullish e = false ->
  fst (processResultsStep_execute_with w facade agent context)
    = Return (JObj [("answer",
                     JStr (error_answer_prefix
                             ++ Js.to_string (Js.opt_get e "message")))])
  /\ (forall m,
         e = JError m ->
         contains (error_answer_prefix ++ Js.to_string (Js.opt_get e "message")) m).
Proof.
  intros Hkey Hq Ht Hf He.
  rewrite (processResultsStep_execute_with_rejection w facade agent context q e
             Hkey Hq Ht Hf).
  rewrite (get_non_nullish e "message" He).
  split; [reflexivity|]. intros m ->.
  exact (contains_suffix error_answer_prefix m).
Qed.

Lemma agent_rejection_degraded_witness :
  fst (processResultsStep_execute_with
         (mkWorld (Some "sk-live") (Return []) (fun _ _ => Fulfilled "ok"))
         (fun _ _ => FacadeThrows (JObj [("code", JStr "429");
                                         ("message", JStr "rate limited")]))
         (webSearchAgent_of [])
         (JObj [("context", JObj [("triggerData", query_output (JStr "q"))])]))
    = Return (JObj [("answer", JStr (error_answer_prefix ++ "rate limited"))]).
Proof.
  apply (proj1 (agent_rejection_degraded
                  (mkWorld (Some "sk-live") (Return []) (fun _ _ => Fulfilled "ok"))
                  (fun _ _ => FacadeThrows (JObj [("code", JStr "429");
                                                  ("message", JStr "rate limited")]))
                  (webSearchAgent_of [])
                  (JObj [("context", JObj [("triggerData", query_output (JStr "q"))])])
                  (JStr "q")
                  (JObj [("code", JStr "429"); ("message", JStr "rate limited")])
                  eq_refl eq_refl eq_refl eq_refl eq_refl)).
Defined.

(** X19. When the Agent Facade call of a run rejects with an [Error] whose
    message is [m], tools having been provisioned, [runWebSearchAgent]
    returns [{ success: true, result: { answer } }] in every reachable state,
    the answer being the error explanation followed by [m]. *)
Theorem agent_error_run_succeeds
    (w : World) (tools : Tools) (st : ModuleState) (req q : JsValue)
    (message : string) :
  api_key_invalid w = false ->
  mcp_getTools w = Return tools ->
  reachable w st ->
  request_query req = Return q ->
  Js.truthy q = true ->
  Agent_generate w (webSearchAgent_of tools) [mkMessage "user" q]
    = Rejected message ->
  fst (runWebSearchAgent w req st)
    = Return (JObj [("success", JBool true);
                    ("result",
                     JObj [("answer", JStr (error_answer_prefix ++ message))])])
  /\ contains (error_answer_prefix ++ message) message.
Proof.
  intros Hkey Htools Hr Hreq Ht Hgen. split; [|apply contains_suffix].
  rewrite (runWebSearchAgent_ok w tools req q st Htools
             (reachable_coherent w st Hr) Hreq Ht).
  unfold agent_answer. now rewrite Hkey, Hgen.
Qed.

Lemma agent_error_run_succeeds_witness :
  fst (runWebSearchAgent
         (mkWorld (Some "sk-live") (Return ["brave_web_search"])
                  (fun _ _ => Rejected "NetworkTimeout"))
         (request (JStr "What is the capital of Japan?")) initial_state)
    = Return (JObj [("success", JBool true);
                    ("result",
                     JObj [("answer",
                            JStr (error_answer_prefix ++ "NetworkTimeout"))])]).
Proof.
  refine (proj1 (agent_error_run_succeeds
                   (mkWorld (Some "sk-live") (Return ["brave_web_search"])
                            (fun _ _ => Rejected "NetworkTimeout"))
                   ["brave_web_search"] initial_state
                   (request (JStr "What is the capital of Japan?"))
                   (JStr "What is the capital of Japan?")
                   "NetworkTimeout" _ _ _ _ _ _)).
  - reflexivity.
  - reflexivity.
  - now exists [].
  - reflexivity.
  - reflexivity.
  - reflexivity.
Defined.
